(** * DynamoDbRepository

    A shallow embedding of [src/dynamoDB/boto3_repository.py]: a repository
    class bound to one DynamoDB table, with the seven operations
    [insert_many], [insert], [find_by_id], [update], [find_all], [delete]
    and [search].

    The definitions come first.
    - The data the Python code handles: attribute values, items ([Dict]),
      boto3 condition objects, the keyword arguments of each table call and
      the response dictionaries.
    - The repository methods, written in a small monad that threads the
      table state and a trace of what the method did (the table calls with
      their outcomes and the [logger.error] messages), and that has
      Python's exceptions, [try]/[except ClientError]/[else] and the bare
      [raise].  The methods are written against an interface, [Table], so
      that what they do can be stated for every behaviour of the store.
    - A model of one DynamoDB table with the string partition key ["id"],
      an instance of [Table].
    - Sample data and the vocabulary of the properties.

    The properties follow: first those that hold of the methods on every
    store, then those that hold on the DynamoDB table. *)

From Stdlib Require Import ZArith String.
From stdpp Require Import gmap strings list fin_maps.

Set Warnings "-register-all".
Local Open Scope Z_scope.

(** ** Attribute values and items *)

(** What an item holds under a field name: the value kinds boto3's
    serializer accepts. *)
Inductive value : Type :=
  | VNull
  | VBool (b : bool)
  | VNum (n : Z)
  | VStr (s : string)
  | VBin (b : list Byte.byte)
  | VList (l : list value)
  | VMap (m : gmap string value).

Global Instance byte_eq_dec : EqDecision Byte.byte := Byte.byte_eq_dec.

Global Instance value_eq_dec : EqDecision value.
Proof.
  refine (fix go (x y : value) {struct x} : Decision (x = y) :=
    match x, y with
    | VNull, VNull => left _
    | VBool a, VBool b => cast_if (decide (a = b))
    | VNum a, VNum b => cast_if (decide (a = b))
    | VStr a, VStr b => cast_if (decide (a = b))
    | VBin a, VBin b => cast_if (decide (a = b))
    | VList a, VList b => cast_if (@decide (a = b) (@list_eq_dec _ go a b))
    | VMap a, VMap b =>
        cast_if (@decide (a = b) (@gmap_eq_dec _ _ _ _ go a b))
    | _, _ => right _
    end); clear go; abstract congruence.
Defined.

(** A Python [dict] with string keys: an item, a key ([{'id': item_id}]),
    the [Attributes] of an update. *)
Abbreviation Dict := (gmap string value).

(** Truth value of a dictionary in [if d:]: false exactly when empty. *)
Definition dict_truthy (d : Dict) : bool := negb (bool_decide (d = ∅)).

(** Truth value of [response.get(k, None)]: [None] and the empty
    dictionary are false. *)
Definition truthy (o : option Dict) : bool :=
  match o with
  | None => false
  | Some d => dict_truthy d
  end.

(** The line feed of ["{msg}\n{error_code}:{error_msg}"]. *)
Definition nl : string := String (Ascii.ascii_of_nat 10) EmptyString.

(** [needle in hay] on Python strings. *)
Fixpoint str_contains (needle hay : string) : bool :=
  String.prefix needle hay ||
  match hay with
  | EmptyString => false
  | String _ rest => str_contains needle rest
  end.

(** ** boto3.dynamodb.conditions *)

Module conditions.

Inductive AttributeBase : Type :=
  | Attr (name : string).

Definition attr_name (a : AttributeBase) : string :=
  match a with Attr n => n end.

Inductive ConditionBase : Type :=
  | AttributeExists (a : AttributeBase)
  | AttributeNotExists (a : AttributeBase)
  | Equals (a : AttributeBase) (v : value)
  | Contains (a : AttributeBase) (v : value)
  | And (c1 c2 : ConditionBase)
  | Or (c1 c2 : ConditionBase)
  | Not (c : ConditionBase).

(** [Attr(name).exists()] and [Attr(name).contains(value)]. *)
Definition exists_ (a : AttributeBase) : ConditionBase := AttributeExists a.
Definition contains (a : AttributeBase) (v : value) : ConditionBase :=
  Contains a v.

Global Instance AttributeBase_eq_dec : EqDecision AttributeBase.
Proof. solve_decision. Defined.

Global Instance ConditionBase_eq_dec : EqDecision ConditionBase.
Proof. solve_decision. Defined.

(** What the store computes for a condition on the attributes of an item
    (an absent item has no attribute).  [contains] is a substring test on
    a string attribute and a membership test on a list attribute. *)
Fixpoint holds (c : ConditionBase) (item : Dict) : bool :=
  match c with
  | AttributeExists a => bool_decide (is_Some (item !! attr_name a))
  | AttributeNotExists a => bool_decide (item !! attr_name a = None)
  | Equals a v => bool_decide (item !! attr_name a = Some v)
  | Contains a v =>
      match item !! attr_name a, v with
      | Some (VStr s), VStr sub => str_contains sub s
      | Some (VList l), _ => bool_decide (v ∈ l)
      | _, _ => false
      end
  | And c1 c2 => holds c1 item && holds c2 item
  | Or c1 c2 => holds c1 item || holds c2 item
  | Not c' => negb (holds c' item)
  end.

End conditions.
Import conditions.

(** ** Table calls and their responses *)

(** [scan_args]: ["Limit"] is always there, ["ExclusiveStartKey"] only once
    it has been assigned. *)
Record ScanArgs : Type := MkScanArgs {
  Limit : Z;
  ExclusiveStartKey : option Dict;
}.

(** The calls the repository makes on [self.table], with their keyword
    arguments.  [BatchWriter data] stands for the whole block
    [with self.table.batch_writer() as writer: for item in data:
    writer.put_item(Item=item)]: boto3's writer receives the items of
    [data] in order and does the buffering, chunking and resending.  It is
    the run of the block, not one request to the service: the writer sends
    none for an empty list and one for every 25 items. *)
Inductive Request : Type :=
  | PutItem (Item : Dict)
  | BatchWriter (data : list Dict)
  | GetItem (Key : Dict)
  | UpdateItem (Key : Dict) (UpdateExpression : string)
      (ExpressionAttributeNames : gmap string string)
      (ExpressionAttributeValues : Dict)
      (ConditionExpression : ConditionBase) (ReturnValues : string)
  | Scan (scan_args : ScanArgs)
  | DeleteItem (Key : Dict)
  | Query (KeyConditionExpression : option ConditionBase)
      (FilterExpression : option ConditionBase).

(** A response dictionary: each key may be missing. *)
Record Response : Type := MkResponse {
  Item : option Dict;
  Attributes : option Dict;
  Items : option (list Dict);
  LastEvaluatedKey : option Dict;
}.

Definition empty_response : Response :=
  {| Item := None; Attributes := None; Items := None;
     LastEvaluatedKey := None |}.

(** ** Exceptions and outcomes *)

(** [ClientError] is botocore's, with [err.response['Error']['Code']] and
    [err.response['Error']['Message']].  [OtherError] is any exception that
    is not a [ClientError] (a botocore connection error, a parameter
    validation error raised before the request is sent). *)
Inductive exn : Type :=
  | ClientError (Code Message : string)
  | RuntimeError (msg : string)
  | KeyError (key : string)
  | OtherError (name : string).

Inductive outcome (A : Type) : Type :=
  | Returned (a : A)
  | Raised (e : exn).
Arguments Returned {A} a.
Arguments Raised {A} e.

Global Instance exn_eq_dec : EqDecision exn.
Proof. solve_decision. Defined.

(** What a method did, in order: a call on the table with what it answered,
    or a message given to [logger.error]. *)
Inductive event : Type :=
  | Called (r : Request) (o : outcome Response)
  | Logged (msg : string).

Record world (S : Type) : Type := MkWorld {
  store : S;
  trace : list event;
}.
Arguments MkWorld {S} store trace.
Arguments store {S} w.
Arguments trace {S} w.

(** The table resource: how the store answers a call and what state it is
    left in. *)
Class Table (S : Type) : Type := {
  execute : Request → S → outcome Response * S;
}.

(** How Python formats an item inside an f-string ([f"({item})"]). *)
Class Format : Type := {
  format_dict : Dict → string;
}.

(** ** The monad of the methods *)

(** A computation runs in a dynamic context, the exception the caller is
    handling when it makes the call ([None] outside every [except] block),
    which is what a bare [raise] raises again; it transforms the world and
    returns a value or raises. *)
Definition M (S A : Type) : Type :=
  option exn → world S → outcome A * world S.

Section Monad.
Context {S : Type} `{!Table S}.

Definition ret {A} (a : A) : M S A := λ _ w, (Returned a, w).

Definition bind {A B} (m : M S A) (k : A → M S B) : M S B :=
  λ h w,
    match m h w with
    | (Returned a, w') => k a h w'
    | (Raised e, w') => (Raised e, w')
    end.

(** [raise e]. *)
Definition raise {A} (e : exn) : M S A := λ _ w, (Raised e, w).

(** The bare [raise]: the exception being handled is raised again; with
    none, Python raises [RuntimeError]. *)
Definition reraise {A} : M S A :=
  λ h w,
    match h with
    | Some e => (Raised e, w)
    | None => (Raised (RuntimeError "No active exception to reraise"), w)
    end.

(** [try: body / except ClientError as err: handler / else: orelse].
    Only a [ClientError] raised by [body] is caught; the handler runs with
    that exception as the one being handled; [orelse] runs after a [body]
    that raised nothing, outside the reach of the [except]. *)
Definition try_except_ClientError {A B} (body : M S A)
    (handler : string → string → M S B) (orelse : A → M S B) : M S B :=
  λ h w,
    match body h w with
    | (Returned a, w') => orelse a h w'
    | (Raised (ClientError code msg), w') =>
        handler code msg (Some (ClientError code msg)) w'
    | (Raised e, w') => (Raised e, w')
    end.

(** A call on [self.table]. *)
Definition call (r : Request) : M S Response :=
  λ _ w,
    let '(o, s') := execute r (store w) in
    (o, MkWorld s' (trace w ++ [Called r o])).

(** [logger.error(msg)]. *)
Definition logger_error (msg : string) : M S unit :=
  λ _ w, (Returned tt, MkWorld (store w) (trace w ++ [Logged msg])).

End Monad.

Global Instance M_ret {S} : MRet (M S) := λ A, @ret S A.
Global Instance M_bind {S} : MBind (M S) := λ A B k m, @bind S A B m k.

(** ** class DynamoDbRepository *)

Module DynamoDbRepository.

(** [self]: the table resource made by [__init__], of which the methods
    read the name. *)
Record t : Type := __init__ {
  table_name : string;
}.

Section Methods.
Context {S : Type} `{!Table S} `{!Format}.

(** The handler every method shares:
    [logger.error(f"{msg}\n{error_code}:{error_msg}"); raise]. *)
Definition log_and_reraise {A} (msg error_code error_msg : string)
    : M S A :=
  logger_error (msg +:+ nl +:+ error_code +:+ ":" +:+ error_msg);;
  reraise.

Definition insert_many_msg (self : t) : string :=
  "Não foi possível inserir os dados na tabela ("
    +:+ table_name self +:+ ").".

Definition insert_many (self : t) (data : list Dict) : M S unit :=
  try_except_ClientError
    (call (BatchWriter data))
    (λ error_code error_msg,
       log_and_reraise (insert_many_msg self) error_code error_msg)
    (λ _, ret tt).

Definition insert_msg (self : t) (item : Dict) : string :=
  "Não foi possível inserir o item (" +:+ format_dict item
    +:+ ") na tabela (" +:+ table_name self +:+ ").".

Definition insert (self : t) (item : Dict) : M S unit :=
  try_except_ClientError
    (call (PutItem item))
    (λ error_code error_msg,
       log_and_reraise (insert_msg self item) error_code error_msg)
    (λ _, ret tt).

Definition find_by_id_msg (self : t) : string :=
  "Não foi possível realizar a pesquisa na tabela ("
    +:+ table_name self +:+ ").".

Definition not_found_msg (self : t) (item_id : string) : string :=
  "Item (" +:+ item_id +:+ ") não encontrado na tabela ("
    +:+ table_name self +:+ ").".

Definition find_by_id (self : t) (item_id : string) : M S Dict :=
  try_except_ClientError
    (call (GetItem {[ "id" := VStr item_id ]}))
    (λ error_code error_msg,
       log_and_reraise (find_by_id_msg self) error_code error_msg)
    (λ response,
       let not_found : M S Dict :=
         logger_error (not_found_msg self item_id);;
         reraise in
       match Item response with
       | Some item => if dict_truthy item then ret item else not_found
       | None => not_found
       end).

Definition update_msg (self : t) (item_id : string) : string :=
  "Não foi possível atualizar o item (" +:+ item_id
    +:+ ") na tabela (" +:+ table_name self +:+ ").".

(** [condition_expression] is [None] or a condition built with
    [boto3.dynamodb.conditions]; a condition object is true in
    [if not condition_expression] ([ConditionBase] defines neither
    [__bool__] nor [__len__]). *)
Definition update (self : t) (item_id : string)
    (update_expression : string)
    (expression_attribute_values : Dict)
    (condition_expression : option ConditionBase)
    (expression_attribute_names : gmap string string) : M S Dict :=
  try_except_ClientError
    (let condition_required := exists_ (Attr "id") in
     let condition_expression :=
       match condition_expression with
       | None => condition_required
       | Some c => And condition_required c
       end in
     call (UpdateItem {[ "id" := VStr item_id ]} update_expression
             expression_attribute_names expression_attribute_values
             condition_expression "UPDATED_NEW"))
    (λ error_code error_msg,
       log_and_reraise (update_msg self item_id) error_code error_msg)
    (λ response,
       match Attributes response with
       | Some attributes => ret attributes
       | None => raise (KeyError "Attributes")
       end).

Definition find_all_msg (self : t) : string :=
  "Não foi possível realizar o Scan na tabela ("
    +:+ table_name self +:+ ").".

(** The [while not done] loop of [find_all], from the test of
    [start_key] on.  The loop ends when the store sends no
    [LastEvaluatedKey]; [fuel] bounds the number of pages, and [None]
    is a loop still running when it is used up. *)
Fixpoint scan_loop (fuel : nat) (items : list Dict)
    (scan_args : ScanArgs) (start_key : option Dict)
    (h : option exn) (w : world S)
    : option (outcome (list Dict) * world S) :=
  match fuel with
  | O => None
  | Datatypes.S fuel' =>
      let scan_args :=
        if truthy start_key
        then MkScanArgs (Limit scan_args) start_key
        else scan_args in
      match call (Scan scan_args) h w with
      | (Raised e, w') => Some (Raised e, w')
      | (Returned response, w') =>
          let items := items ++ default [] (Items response) in
          let start_key := LastEvaluatedKey response in
          match start_key with
          | None => Some (Returned items, w')
          | Some _ => scan_loop fuel' items scan_args start_key h w'
          end
      end
  end.

(** [start_key] is a parameter of the method, assigned [None] before
    the loop reads it. *)
Definition find_all (self : t) (start_key : option Dict) (limit : Z)
    (fuel : nat) (h : option exn) (w : world S)
    : option (outcome (list Dict) * world S) :=
  let items : list Dict := [] in
  let scan_args := MkScanArgs limit None in
  let start_key : option Dict := None in
  match scan_loop fuel items scan_args start_key h w with
  | None => None
  | Some (Raised (ClientError error_code error_msg), w') =>
      Some (log_and_reraise (find_all_msg self) error_code error_msg
              (Some (ClientError error_code error_msg)) w')
  | Some (Raised e, w') => Some (Raised e, w')
  | Some (Returned items, w') => Some (Returned items, w')
  end.

Definition delete_msg (self : t) (item_id : string) : string :=
  "Não foi possível deleter o item (" +:+ item_id
    +:+ ") na tabela (" +:+ table_name self +:+ ").".

Definition delete (self : t) (item_id : string) : M S unit :=
  try_except_ClientError
    (call (DeleteItem {[ "id" := VStr item_id ]}))
    (λ error_code error_msg,
       log_and_reraise (delete_msg self item_id) error_code error_msg)
    (λ _, ret tt).

Definition search_msg (field value : string) : string :=
  "Não foi possível pesquisar itens no campo (" +:+ field
    +:+ ") que contém (" +:+ value +:+ ").".

Definition search (self : t) (field value : string)
    : M S (list Dict) :=
  try_except_ClientError
    (call (Query None (Some (contains (Attr field) (VStr value)))))
    (λ error_code error_msg,
       log_and_reraise (search_msg field value) error_code error_msg)
    (λ response,
       match Items response with
       | Some items => ret items
       | None => raise (KeyError "Items")
       end).

End Methods.

(** The defaults of the signatures: [limit: int = 100] and
    [expression_attribute_names: Dict[str] = {}]. *)
Definition default_limit : Z := 100.
Definition default_expression_attribute_names : gmap string string := ∅.

End DynamoDbRepository.

(** ** The store: one DynamoDB table with the partition key ["id"] *)

(** The table the repository is written for has the key schema
    [id : S].  The model gives, for each call the repository makes, the
    answer and the state change that the service documents: a put
    overwrites, a get of an absent key answers without ['Item'], a delete of
    an absent key succeeds, an update checks its condition and otherwise
    writes the item (creating it when absent), a scan returns pages in a
    fixed order with the key of the last row as cursor, and a query needs a
    key condition.  Item size and throughput limits, the 1 MB page bound
    and the rule that a key string is not empty are outside the model. *)
Module dynamodb.

Abbreviation rows := (gmap string Dict).

(** The update-expression language ([SET a = :v, b = b + :w REMOVE c]) is
    the store's own.  The model takes its reading as a parameter: for an
    expression with its placeholder names and values, [None] when the
    store rejects it, or for each attribute the expression writes, the
    new value as a function of the item before the update ([Some f]), or
    its removal ([None]). *)
Class UpdateLanguage : Type := {
  parse_update :
    string → gmap string string → Dict →
    option (gmap string (option (Dict → value)));
}.

Definition ValidationException (msg : string) : exn :=
  ClientError "ValidationException" msg.

Definition ConditionalCheckFailedException : exn :=
  ClientError "ConditionalCheckFailedException"
    "The conditional request failed".

(** The key under which an item is stored: its string ["id"]. *)
Definition key_of (item : Dict) : option string :=
  match item !! "id" with
  | Some (VStr s) => Some s
  | _ => None
  end.

(** A [Key] argument matches the schema when it is [{'id': s}]. *)
Definition key_id (Key : Dict) : option string :=
  match key_of Key with
  | Some s =>
      if bool_decide (Key = {[ "id" := VStr s ]}) then Some s else None
  | None => None
  end.

Definition schema_error : exn :=
  ValidationException "The provided key element does not match the schema".

Definition missing_key_error : exn :=
  ValidationException
    "One or more parameter values were invalid: Missing the key id in the item".

(** A dictionary in a response: the key is left out when there is nothing
    to send. *)
Definition nonempty (d : Dict) : option Dict :=
  if bool_decide (d = ∅) then None else Some d.

(** The type of a value as the store names it. *)
Definition type_code (v : value) : string :=
  match v with
  | VNull => "NULL"
  | VBool _ => "BOOL"
  | VNum _ => "N"
  | VStr _ => "S"
  | VBin _ => "B"
  | VList _ => "L"
  | VMap _ => "M"
  end.

(** What the store answers to a put of an item that cannot be stored: the
    key is missing, or it is there with another type than [S]. *)
Definition key_error (item : Dict) : exn :=
  match item !! "id" with
  | None => missing_key_error
  | Some v =>
      ValidationException
        ("One or more parameter values were invalid: Type mismatch for key id expected: S actual: "
           +:+ type_code v)
  end.

Definition put_item (item : Dict) (tbl : rows) : outcome Response * rows :=
  match key_of item with
  | Some k => (Returned empty_response, <[k := item]> tbl)
  | None => (Raised (key_error item), tbl)
  end.

Definition get_item (Key : Dict) (tbl : rows) : outcome Response * rows :=
  match key_id Key with
  | Some k =>
      (Returned {| Item := tbl !! k; Attributes := None; Items := None;
                   LastEvaluatedKey := None |}, tbl)
  | None => (Raised schema_error, tbl)
  end.

Definition delete_item (Key : Dict) (tbl : rows)
    : outcome Response * rows :=
  match key_id Key with
  | Some k => (Returned empty_response, base.delete k tbl)
  | None => (Raised schema_error, tbl)
  end.

(** One [BatchWriteItem] request of put requests. *)
Definition batch_write_item (chunk : list Dict) (tbl : rows)
    : outcome Response * rows :=
  match mapM key_of chunk with
  | Some keys =>
      if bool_decide (NoDup keys)
      then (Returned empty_response,
            foldl (λ t kv, <[kv.1 := kv.2]> t) tbl (zip keys chunk))
      else (Raised (ValidationException
                      "Provided list of item keys contains duplicates"),
            tbl)
  | None => (Raised missing_key_error, tbl)
  end.

(** boto3's batch writer on the items of [data]: each [put_item] appends
    to the buffer and sends it once it holds 25 requests; leaving the
    [with] block sends what is left. *)
Fixpoint batch_writer (buffer data : list Dict) (tbl : rows)
    : outcome Response * rows :=
  match data with
  | [] =>
      match buffer with
      | [] => (Returned empty_response, tbl)
      | _ => batch_write_item buffer tbl
      end
  | item :: data' =>
      let buffer := buffer ++ [item] in
      if decide (25 ≤ length buffer)%nat then
        match batch_write_item buffer tbl with
        | (Returned _, tbl') => batch_writer [] data' tbl'
        | (Raised e, tbl') => (Raised e, tbl')
        end
      else batch_writer buffer data' tbl
  end.

Section Update.
Context `{!UpdateLanguage}.

(** The item after the update: the operands are read in the item
    before it. *)
Definition apply_update (delta : gmap string (option (Dict → value)))
    (old : Dict) : Dict :=
  merge (λ d o,
           match d with
           | Some (Some f) => Some (f old)
           | Some None => None
           | None => o
           end) delta old.

(** The attributes the update wrote, as they are after it. *)
Definition updated_new (delta : gmap string (option (Dict → value)))
    (old : Dict) : Dict :=
  omap (λ d : option (Dict → value), (λ f, f old) <$> d) delta.

(** The attributes the update touched, as they were before it. *)
Definition updated_old (delta : gmap string (option (Dict → value)))
    (old : Dict) : Dict :=
  filter (λ kv, is_Some (delta !! kv.1)) old.

Definition return_values (ReturnValues : string)
    (delta : gmap string (option (Dict → value)))
    (current : option Dict) (old new : Dict) : option (option Dict) :=
  if decide (ReturnValues = "NONE") then Some None
  else if decide (ReturnValues = "ALL_OLD") then Some current
  else if decide (ReturnValues = "ALL_NEW") then Some (Some new)
  else if decide (ReturnValues = "UPDATED_OLD")
    then Some (nonempty (updated_old delta old))
  else if decide (ReturnValues = "UPDATED_NEW")
    then Some (nonempty (updated_new delta old))
  else None.

Definition update_item (Key : Dict) (UpdateExpression : string)
    (ExpressionAttributeNames : gmap string string)
    (ExpressionAttributeValues : Dict)
    (ConditionExpression : ConditionBase) (ReturnValues : string)
    (tbl : rows) : outcome Response * rows :=
  match key_id Key with
  | None => (Raised schema_error, tbl)
  | Some k =>
      match parse_update UpdateExpression ExpressionAttributeNames
              ExpressionAttributeValues with
      | None =>
          (Raised (ValidationException "Invalid UpdateExpression"), tbl)
      | Some delta =>
          if bool_decide (is_Some (delta !! "id")) then
            (Raised (ValidationException
               "One or more parameter values were invalid: Cannot update attribute id. This attribute is part of the key"),
             tbl)
          else
            let current := tbl !! k in
            if holds ConditionExpression (default ∅ current) then
              let old := default {[ "id" := VStr k ]} current in
              let new := apply_update delta old in
              match return_values ReturnValues delta current old new with
              | Some attributes =>
                  (Returned {| Item := None; Attributes := attributes;
                               Items := None;
                               LastEvaluatedKey := None |},
                   <[k := new]> tbl)
              | None =>
                  (Raised (ValidationException
                             "Invalid ReturnValues"), tbl)
              end
            else (Raised ConditionalCheckFailedException, tbl)
      end
  end.

End Update.

(** The rows a scan has still to read after the row with key [k]. *)
Fixpoint after (k : string) (l : list (string * Dict))
    : option (list (string * Dict)) :=
  match l with
  | [] => None
  | kv :: l' => if decide (kv.1 = k) then Some l' else after k l'
  end.

(** One page of a scan.  The rows are read in the table's own fixed
    order; a page has at most [Limit] of them; a page that reached
    [Limit] ends with the key of its last row as ['LastEvaluatedKey'],
    whether or not rows remain.  A [Limit] below 1 is refused by
    botocore's parameter validation before the request is sent, an
    exception that is not a [ClientError].  The model resumes from the
    key of a row that is in the table. *)
Definition scan (scan_args : ScanArgs) (tbl : rows)
    : outcome Response * rows :=
  if decide (Limit scan_args < 1) then
    (Raised (OtherError "ParamValidationError"), tbl)
  else
    let all := map_to_list tbl in
    let start :=
      match ExclusiveStartKey scan_args with
      | None => Some all
      | Some Key => k ← key_id Key; after k all
      end in
    match start with
    | None =>
        (Raised (ValidationException
                   "The provided starting key is invalid"), tbl)
    | Some rest =>
        let n := Z.to_nat (Limit scan_args) in
        let page := take n rest in
        (Returned
           {| Item := None; Attributes := None;
              Items := Some page.*2;
              LastEvaluatedKey :=
                if decide (n ≤ length rest)%nat
                then (λ kv : string * Dict, {[ "id" := VStr kv.1 ]})
                       <$> last page
                else None |},
         tbl)
    end.

(** A query reads the rows of one partition: the service refuses a
    request without a key condition, and the key condition is an equality
    on ["id"].  The filter is applied to the rows read. *)
Definition query (KeyConditionExpression FilterExpression
                    : option ConditionBase) (tbl : rows)
    : outcome Response * rows :=
  match KeyConditionExpression with
  | None =>
      (Raised (ValidationException
         "Either the KeyConditions or KeyConditionExpression parameter must be specified in the request."),
       tbl)
  | Some (Equals (Attr "id") (VStr k)) =>
      let read := option_list (tbl !! k) in
      let keep item :=
        match FilterExpression with
        | None => true
        | Some c => holds c item
        end in
      (Returned {| Item := None; Attributes := None;
                   Items := Some (List.filter keep read);
                   LastEvaluatedKey := None |}, tbl)
  | Some _ =>
      (Raised (ValidationException
                 "Query condition missed key schema element: id"), tbl)
  end.

Global Instance table `{!UpdateLanguage} : Table rows := {|
  execute r tbl :=
    match r with
    | PutItem item => put_item item tbl
    | BatchWriter data => batch_writer [] data tbl
    | GetItem Key => get_item Key tbl
    | UpdateItem Key ue names values cond rv =>
        update_item Key ue names values cond rv tbl
    | Scan scan_args => scan scan_args tbl
    | DeleteItem Key => delete_item Key tbl
    | Query kc fe => query kc fe tbl
    end
|}.

(** The store accepts the update expression of a request: it reads it, and
    the expression does not write the key attribute. *)
Definition update_accepted `{!UpdateLanguage} (UpdateExpression : string)
    (ExpressionAttributeNames : gmap string string)
    (ExpressionAttributeValues : Dict) : Prop :=
  ∃ delta,
    parse_update UpdateExpression ExpressionAttributeNames
      ExpressionAttributeValues = Some delta
    ∧ delta !! "id" = None.

(** Every row is stored under the ["id"] it carries. *)
Definition table_wf (tbl : rows) : Prop :=
  map_Forall (λ k item, item !! "id" = Some (VStr k)) tbl.

End dynamodb.

(** ** Sample data *)

(** A repository on the table ["users"], three items and two stores: the
    DynamoDB table model with a small update language, and a store that
    refuses every call.  They are the concrete inputs the properties below
    are instantiated on. *)
Module sample.
Import dynamodb.

Definition self : DynamoDbRepository.t :=
  DynamoDbRepository.__init__ "users".

Definition format : Format := {| format_dict := λ _, "{...}" |}.

(** The one expression of the docstring of [update], ["set #S=:s"]. *)
Definition language : UpdateLanguage := {|
  parse_update ue names values :=
    if decide (ue = "set #S=:s") then
      n ← names !! "#S"; v ← values !! ":s"; Some {[ n := Some (λ _, v) ]}
    else None
|}.

Definition u1 : Dict := {[ "id" := VStr "u1"; "status" := VStr "active" ]}.
Definition u2 : Dict := {[ "id" := VStr "u2"; "status" := VStr "idle" ]}.
Definition u3 : Dict := {[ "id" := VStr "u3" ]}.

Definition users : rows := {[ "u1" := u1; "u2" := u2; "u3" := u3 ]}.

Definition empty_world : world rows := MkWorld ∅ [].
Definition users_world : world rows := MkWorld users [].

Definition store : Table rows := @table language.

Definition throttling : exn :=
  ClientError "ProvisionedThroughputExceededException"
    "The level of configured provisioned throughput for the table was exceeded.".

Definition throttled : Table unit :=
  {| execute _ s := (Raised throttling, s) |}.

(** A store whose every answer has an empty ['Item'] and no other key. *)
Definition hollow : Table unit :=
  {| execute _ s :=
       (Returned {| Item := Some ∅; Attributes := None; Items := None;
                    LastEvaluatedKey := None |}, s) |}.

(** A store whose every answer is a page of one item with a cursor. *)
Definition endless : Table unit :=
  {| execute _ s :=
       (Returned {| Item := None; Attributes := None; Items := Some [u3];
                    LastEvaluatedKey := Some {[ "id" := VStr "u3" ]} |},
        s) |}.

(** An item that has no ["id"]. *)
Definition nameless : Dict := {[ "status" := VStr "active" ]}.

End sample.

(** ** Vocabulary of the properties *)

(** The message a handler logs for a [ClientError]. *)
Definition error_log (msg error_code error_msg : string) : event :=
  Logged (msg +:+ nl +:+ error_code +:+ ":" +:+ error_msg).

(** What a method owes the caller for the events [evs] it produced and
    its outcome [o]: a call the store answered with an exception is the
    last call the method made, the outcome is that very exception, and
    when it is a [ClientError] the only thing that follows the call is
    the log of [msg] with its code and message. *)
Definition faithful {A} (msg : string) (o : outcome A) (evs : list event)
    : Prop :=
  ∀ r e, Called r (Raised e) ∈ evs →
    o = Raised e ∧
    ∃ pre, evs = pre ++ Called r (Raised e) ::
                   match e with
                   | ClientError code message => [error_log msg code message]
                   | _ => []
                   end.

Definition is_answer (ev : event) : Prop :=
  ∃ r response, ev = Called r (Returned response).

Definition is_log (ev : event) : Prop := ∃ msg, ev = Logged msg.

(** A run of a method from the world [w] reports the store's errors: the
    events it added to the trace are [faithful]. *)
Definition reports {S A} (msg : string) (w : world S)
    (run : outcome A * world S) : Prop :=
  ∃ evs, trace run.2 = trace w ++ evs ∧ faithful msg run.1 evs.

(** A message is table-scoped when it names the table of the repository. *)
Definition names_table (self : DynamoDbRepository.t) (msg : string) : bool :=
  str_contains (DynamoDbRepository.table_name self) msg.

(** The effective condition in the words of the specification, to be
    compared with what [update] sends: the conjunction of "the item with
    this id must already exist" and the caller-supplied condition, if any;
    with no caller condition, the first alone. *)
Definition effective_condition (condition_expression : option ConditionBase)
    : ConditionBase :=
  match condition_expression with
  | None => AttributeExists (Attr "id")
  | Some c => And (AttributeExists (Attr "id")) c
  end.

(** The events of a scan that follows the cursor from [start]: every call
    is a scan with the limit and, as ['ExclusiveStartKey'], what the answer
    before it gave as ['LastEvaluatedKey'] ([start] for the first call);
    every call is answered; the last answer, and only the last, has no
    ['LastEvaluatedKey']. *)
Fixpoint follows_cursor (limit : Z) (start : option Dict)
    (evs : list event) : Prop :=
  match evs with
  | Called r (Returned response) :: evs' =>
      r = Scan (MkScanArgs limit start)
      ∧ match LastEvaluatedKey response with
        | None => evs' = []
        | Some key => follows_cursor limit (Some key) evs'
        end
  | _ => False
  end.

(** The items of the pages in the events of a run, in order; an answer
    without ['Items'] is an empty page. *)
Fixpoint pages (evs : list event) : list Dict :=
  match evs with
  | [] => []
  | Called _ (Returned response) :: evs' =>
      default [] (Items response) ++ pages evs'
  | _ :: evs' => pages evs'
  end.

(** An answered scan that was sent with the limit. *)
Definition is_scan_of (limit : Z) (ev : event) : Prop :=
  ∃ start response,
    ev = Called (Scan (MkScanArgs limit start)) (Returned response).

(** The table after the items of a list were put one after the other, each
    under its ["id"]. *)
Definition puts (items : list Dict) (tbl : dynamodb.rows) : dynamodb.rows :=
  foldl (λ t item,
           match dynamodb.key_of item with
           | Some k => <[k := item]> t
           | None => t
           end) tbl items.

(** * Properties *)

Import DynamoDbRepository.

(** ** Strings *)

Lemma prefix_app (n b : string) : String.prefix n (n +:+ b) = true.
Proof.
  induction n as [|c n IH]; [by destruct b|].
  change (String.prefix (String c n) (String c (n +:+ b)) = true).
  simpl. destruct (Ascii.ascii_dec c c); [done|congruence].
Qed.

Lemma str_contains_prefix (n hay : string) :
  String.prefix n hay = true → str_contains n hay = true.
Proof. destruct hay; simpl; intros ->; done. Qed.

Lemma str_contains_skip (n a b : string) :
  str_contains n b = true → str_contains n (a +:+ b) = true.
Proof.
  intros Hb. induction a as [|c a IH]; [done|].
  change (str_contains n (String c (a +:+ b)) = true).
  simpl. rewrite IH. apply orb_true_r.
Qed.

Lemma str_contains_app (n a b : string) :
  str_contains n (a +:+ n +:+ b) = true.
Proof. apply str_contains_skip, str_contains_prefix, prefix_app. Qed.

(** ** What the methods do on every store *)

Ltac run_monad :=
  unfold log_and_reraise, mbind, M_bind, bind, mret, M_ret, ret, raise,
    reraise, logger_error; simpl.

Section EveryStore.
Context {S : Type} `{!Table S} `{!Format}.

Lemma faithful_last {A} (msg : string) (o : outcome A) (pre : list event)
    (r : Request) (e : exn) :
  Forall is_answer pre →
  o = Raised e →
  faithful msg o
    (pre ++ Called r (Raised e) ::
       match e with
       | ClientError code message => [error_log msg code message]
       | _ => []
       end).
Proof.
  intros Hpre -> r' e' Hin.
  apply elem_of_app in Hin as [Hin|Hin].
  { rewrite Forall_forall in Hpre. destruct (Hpre _ Hin) as (?&?&?). done. }
  apply elem_of_cons in Hin as [Heq|Hin].
  { injection Heq as -> ->. split; [done|]. by exists pre. }
  destruct e as [c m| | |]; try by apply elem_of_nil in Hin.
  apply list_elem_of_singleton in Hin. done.
Qed.

Lemma faithful_answers {A} (msg : string) (o : outcome A)
    (pre logs : list event) :
  Forall is_answer pre →
  Forall is_log logs →
  faithful msg o (pre ++ logs).
Proof.
  intros Hpre Hlogs r e Hin. rewrite Forall_forall in Hpre, Hlogs.
  apply elem_of_app in Hin as [Hin|Hin].
  - destruct (Hpre _ Hin) as (?&?&?). done.
  - destruct (Hlogs _ Hin) as (?&?). done.
Qed.

(** The shape every method but [find_all] has: one call inside the [try],
    the shared handler, and an [else] part that makes no call. *)
Lemma try_call_reports {A} (msg : string) (r : Request)
    (orelse : Response → M S A) (h : option exn) (w : world S) :
  (∀ response h' w', ∃ logs,
      trace (orelse response h' w').2 = trace w' ++ logs
      ∧ Forall is_log logs) →
  reports msg w
    (try_except_ClientError (call r)
       (λ error_code error_msg, log_and_reraise msg error_code error_msg)
       orelse h w).
Proof.
  intros Helse. unfold reports, try_except_ClientError, call.
  destruct (execute r (store w)) as [[response|e] s'] eqn:Hexec.
  - destruct (Helse response h
                (MkWorld s' (trace w ++ [Called r (Returned response)])))
      as (logs & Htrace & Hlogs).
    exists (Called r (Returned response) :: logs). split.
    + rewrite Htrace. simpl. by rewrite <- app_assoc.
    + apply (faithful_answers _ _ [_]); [|done].
      apply Forall_singleton. by do 2 eexists.
  - exists (Called r (Raised e) ::
             match e with
             | ClientError code message => [error_log msg code message]
             | _ => []
             end).
    split.
    + destruct e; run_monad; by rewrite <- ?app_assoc.
    + apply (faithful_last _ _ []); [done|]. by destruct e.
Qed.

Lemma ret_logs {A} (a : A) (h : option exn) (w : world S) :
  ∃ logs, trace (ret a h w).2 = trace w ++ logs ∧ Forall is_log logs.
Proof. exists []. by rewrite app_nil_r. Qed.

Lemma raise_logs {A} (e : exn) (h : option exn) (w : world S) :
  ∃ logs, trace (@raise S A e h w).2 = trace w ++ logs ∧ Forall is_log logs.
Proof. exists []. by rewrite app_nil_r. Qed.

Lemma scan_loop_events (fuel : nat) (items : list Dict)
    (scan_args : ScanArgs) (start_key : option Dict) (h : option exn)
    (w w' : world S) (o : outcome (list Dict)) :
  scan_loop fuel items scan_args start_key h w = Some (o, w') →
  ∃ pre r answer,
    trace w' = trace w ++ pre ++ [Called r answer]
    ∧ Forall is_answer pre
    ∧ match answer with
      | Raised e => o = Raised e
      | Returned _ => ∃ found, o = Returned found
      end.
Proof.
  revert items scan_args start_key w.
  induction fuel as [|fuel IH]; intros items scan_args start_key w; [done|].
  simpl. unfold call.
  set (args := if truthy start_key then _ else _).
  destruct (execute (Scan args) (store w)) as [[response|e] s'] eqn:Hexec.
  - destruct (LastEvaluatedKey response) as [key|] eqn:Hkey.
    + intros (pre & r & answer & Htrace & Hpre & Hanswer)%IH.
      exists (Called (Scan args) (Returned response) :: pre), r, answer.
      split_and!; [|constructor; [by do 2 eexists|done]|done].
      rewrite Htrace. simpl. by rewrite <- app_assoc.
    + intros [= <- <-]. exists [], (Scan args), (Returned response).
      split_and!; [done|done|by eexists].
  - intros [= <- <-]. exists [], (Scan args), (Raised e). done.
Qed.

Lemma find_all_reports (self : t) (start_key : option Dict) (limit : Z)
    (fuel : nat) (h : option exn) (w w' : world S)
    (o : outcome (list Dict)) :
  find_all self start_key limit fuel h w = Some (o, w') →
  reports (find_all_msg self) w (o, w').
Proof.
  unfold find_all, reports.
  destruct (scan_loop _ _ _ _ _ _) as [[o1 w1]|] eqn:Hloop; [|done].
  apply scan_loop_events in Hloop
    as (pre & r & answer & Htrace & Hpre & Hanswer).
  destruct o1 as [found|e].
  - intros [= <- <-]. exists (pre ++ [Called r answer]). split; [done|].
    destruct answer as [response|e]; [|done].
    rewrite <- (app_nil_r (_ ++ _)). apply faithful_answers; [|done].
    apply Forall_app. split; [done|].
    apply Forall_singleton. by do 2 eexists.
  - destruct answer as [response|e']; [by destruct Hanswer|].
    injection Hanswer as <-.
    intros Hrun.
    exists (pre ++ Called r (Raised e) ::
              match e with
              | ClientError code message =>
                  [error_log (find_all_msg self) code message]
              | _ => []
              end).
    assert (o = Raised e) as ->.
    { destruct e; revert Hrun; run_monad; by intros [= <- <-]. }
    split; [|by apply faithful_last].
    destruct e; revert Hrun; run_monad; intros [= <-]; simpl;
      rewrite Htrace, <- ?app_assoc; done.
Qed.

(** C3.  Whatever the store, [update] makes one call: an [UpdateItem] on
    the key [{'id': item_id}] that carries the caller's update expression,
    names and values, asks for ["UPDATED_NEW"], and whose condition is
    [Attr("id").exists()] alone when the caller gave no condition and
    [And(Attr("id").exists(), c)] when the caller gave [c].  That condition
    holds of an item exactly when the item has an ["id"] and the caller's
    condition, if any, holds of it. *)
Theorem update_sends_effective_condition (self : t) (item_id : string)
    (update_expression : string) (expression_attribute_values : Dict)
    (condition_expression : option ConditionBase)
    (expression_attribute_names : gmap string string)
    (h : option exn) (w : world S) :
  (∃ answer logs,
     trace (update self item_id update_expression
              expression_attribute_values condition_expression
              expression_attribute_names h w).2
     = trace w ++
         Called (UpdateItem {[ "id" := VStr item_id ]} update_expression
                   expression_attribute_names expression_attribute_values
                   (effective_condition condition_expression)
                   "UPDATED_NEW") answer :: logs
     ∧ Forall is_log logs)
  ∧ effective_condition None = exists_ (Attr "id")
  ∧ (∀ c, effective_condition (Some c) = And (exists_ (Attr "id")) c)
  ∧ (∀ item,
       holds (effective_condition condition_expression) item
       = bool_decide (is_Some (item !! "id"))
         && from_option (λ c, holds c item) true condition_expression).
Proof.
  split_and!; [|done|done|].
  - unfold update, try_except_ClientError, call.
    replace (match condition_expression with
             | Some c => And (exists_ (Attr "id")) c
             | None => exists_ (Attr "id")
             end) with (effective_condition condition_expression)
      by by destruct condition_expression.
    destruct (execute _ (store w)) as [[response|e] s'].
    + exists (Returned response), []. split; [|done].
      by destruct (Attributes response).
    + destruct e as [code message| | |].
      * exists (Raised (ClientError code message)),
          [error_log (update_msg self item_id) code message].
        split; [|apply Forall_singleton; by eexists].
        run_monad. by rewrite <- app_assoc.
      * by eexists _, [].
      * by eexists _, [].
      * by eexists _, [].
  - intros item. destruct condition_expression as [c|]; simpl; [done|].
    by rewrite andb_true_r.
Qed.

(** X4.  Whatever the store, [search] makes one call, a query with the
    filter [Attr(field).contains(value)] and no key condition, and returns
    the ['Items'] of its answer as they are: it asks for no further page. *)
Lemma search_makes_one_query (self : t) (field value : string)
    (h : option exn) (w : world S) :
  ∃ answer logs,
    trace (search self field value h w).2
    = trace w ++
        Called (Query None (Some (Contains (Attr field) (VStr value))))
          answer :: logs
    ∧ Forall is_log logs
    ∧ ∀ response,
        answer = Returned response →
        logs = []
        ∧ (search self field value h w).1
          = match Items response with
            | Some items => Returned items
            | None => Raised (KeyError "Items")
            end.
Proof.
  unfold search, try_except_ClientError, call.
  destruct (execute _ (store w)) as [[response|e] s'].
  - exists (Returned response), []. split_and!; [|done|].
    + by destruct (Items response).
    + intros ? [= <-]. by destruct (Items response).
  - destruct e as [code message| | |].
    + exists (Raised (ClientError code message)),
        [error_log (search_msg field value) code message].
      split_and!; [|apply Forall_singleton; by eexists|done].
      run_monad. by rewrite <- app_assoc.
    + by eexists _, [].
    + by eexists _, [].
    + by eexists _, [].
Qed.

(** Whatever the store, in every one of the seven methods a call the store
    answers with an exception is the last call made and its exception is
    the outcome of the method, unchanged; when it is a [ClientError], the
    method logs, between the call and the raise, its own message followed
    by a line feed and [code:message].  The message of [insert_many],
    [insert], [find_by_id], [update], [find_all] and [delete] names the
    table. *)
Theorem store_errors_are_logged_and_raised (self : t) (h : option exn)
    (w : world S) :
  (∀ data,
     reports (insert_many_msg self) w (insert_many self data h w))
  ∧ (∀ item, reports (insert_msg self item) w (insert self item h w))
  ∧ (∀ item_id,
       reports (find_by_id_msg self) w (find_by_id self item_id h w))
  ∧ (∀ item_id ue av ce an,
       reports (update_msg self item_id) w
         (update self item_id ue av ce an h w))
  ∧ (∀ start_key limit fuel run,
       find_all self start_key limit fuel h w = Some run →
       reports (find_all_msg self) w run)
  ∧ (∀ item_id, reports (delete_msg self item_id) w (delete self item_id h w))
  ∧ (∀ field value,
       reports (search_msg field value) w (search self field value h w))
  ∧ (names_table self (insert_many_msg self) = true
     ∧ (∀ item, names_table self (insert_msg self item) = true)
     ∧ names_table self (find_by_id_msg self) = true
     ∧ (∀ item_id, names_table self (update_msg self item_id) = true)
     ∧ names_table self (find_all_msg self) = true
     ∧ (∀ item_id, names_table self (delete_msg self item_id) = true)).
Proof.
  split_and!.
  - intros data. apply try_call_reports. intros. apply ret_logs.
  - intros item. apply try_call_reports. intros. apply ret_logs.
  - intros item_id. apply try_call_reports. intros response h' w'.
    assert (∃ logs,
      trace ((logger_error (not_found_msg self item_id);; reraise)
               h' w' : outcome Dict * world S).2 = trace w' ++ logs
      ∧ Forall is_log logs) as Hnot_found.
    { exists [Logged (not_found_msg self item_id)].
      split; [by destruct h'|]. apply Forall_singleton. by eexists. }
    simpl. destruct (Item response) as [item|]; [|done].
    destruct (dict_truthy item); [apply ret_logs|done].
  - intros item_id ue av ce an. apply try_call_reports. intros response ??.
    destruct (Attributes response); [apply ret_logs|apply raise_logs].
  - intros start_key limit fuel [o w']. apply find_all_reports.
  - intros item_id. apply try_call_reports. intros. apply ret_logs.
  - intros field value. apply try_call_reports. intros response ??.
    destruct (Items response); [apply ret_logs|apply raise_logs].
  - apply str_contains_app.
  - intros item. unfold names_table, insert_msg.
    do 2 apply str_contains_skip. apply str_contains_app.
  - apply str_contains_app.
  - intros item_id. unfold names_table, update_msg.
    do 2 apply str_contains_skip. apply str_contains_app.
  - apply str_contains_app.
  - intros item_id. unfold names_table, delete_msg.
    do 2 apply str_contains_skip. apply str_contains_app.
Qed.

(** C10.  Whatever the store, the limit and the argument given as
    [start_key], [find_all] does what it does with [start_key = None]: the
    argument is not read, and the first call is a scan with the limit and
    no ['ExclusiveStartKey']. *)
Theorem find_all_ignores_start_key (self : t) (start_key : option Dict)
    (limit : Z) (fuel : nat) (h : option exn) (w : world S) :
  find_all self start_key limit fuel h w = find_all self None limit fuel h w
  ∧ match find_all self start_key limit fuel h w with
    | Some (_, w') =>
        ∃ answer rest,
          trace w' = trace w ++ Called (Scan (MkScanArgs limit None)) answer
                                  :: rest
    | None => True
    end.
Proof.
  split; [done|]. unfold find_all.
  destruct fuel as [|fuel]; [done|]. simpl. unfold call.
  destruct (execute _ (store w)) as [[response|e] s'].
  - destruct (LastEvaluatedKey response) as [key|].
    + destruct (scan_loop _ _ _ _ _ _) as [[o1 w1]|] eqn:Hloop; [|done].
      apply scan_loop_events in Hloop as (pre & r & a & Htrace & _ & _).
      simpl in Htrace.
      destruct o1 as [found|[]]; run_monad; rewrite Htrace;
        rewrite <- ?app_assoc; simpl; by eexists _, _.
    + rewrite <- (app_nil_r (trace w ++ _)), <- app_assoc. by eexists _, _.
  - destruct e; run_monad; rewrite <- ?app_assoc; simpl; by eexists _, _.
Qed.

End EveryStore.

(** C9, the code of [search] and of its sibling [delete] on the table
    ["users"], with a store that answers every call with a throttling
    error.  Both log the store's code and message and raise the error
    again.  The message of [delete] names the table, as the messages of
    [insert_many], [insert], [find_by_id], [update] and [find_all] do; the
    message of [search] does not. *)
Theorem search_log_does_not_name_the_table :
  @search unit sample.throttled sample.self "status" "active" None
    (MkWorld tt [])
  = (Raised sample.throttling,
     MkWorld tt
       [Called (Query None (Some (Contains (Attr "status") (VStr "active"))))
          (Raised sample.throttling);
        Logged
          ("Não foi possível pesquisar itens no campo (status) que contém (active)."
             +:+ nl +:+ "ProvisionedThroughputExceededException:"
             +:+ "The level of configured provisioned throughput for the table was exceeded.")])
  ∧ names_table sample.self
      ("Não foi possível pesquisar itens no campo (status) que contém (active)."
         +:+ nl +:+ "ProvisionedThroughputExceededException:"
         +:+ "The level of configured provisioned throughput for the table was exceeded.")
    = false
  ∧ @delete unit sample.throttled sample.self "u1" None (MkWorld tt [])
    = (Raised sample.throttling,
       MkWorld tt
         [Called (DeleteItem {[ "id" := VStr "u1" ]})
            (Raised sample.throttling);
          Logged
            ("Não foi possível deleter o item (u1) na tabela (users)."
               +:+ nl +:+ "ProvisionedThroughputExceededException:"
               +:+ "The level of configured provisioned throughput for the table was exceeded.")])
  ∧ names_table sample.self
      ("Não foi possível deleter o item (u1) na tabela (users)."
         +:+ nl +:+ "ProvisionedThroughputExceededException:"
         +:+ "The level of configured provisioned throughput for the table was exceeded.")
    = true.
Proof. split_and!; reflexivity. Qed.

(** ** What the methods do on the DynamoDB table *)

Import dynamodb.

Lemma key_id_singleton (s : string) : key_id {[ "id" := VStr s ]} = Some s.
Proof.
  unfold key_id, key_of. rewrite lookup_singleton_eq.
  by rewrite bool_decide_eq_true_2.
Qed.

Lemma key_of_Some (item : Dict) (k : string) :
  key_of item = Some k ↔ item !! "id" = Some (VStr k).
Proof. unfold key_of. destruct (item !! "id") as [[]|]; naive_solver. Qed.

Lemma dict_truthy_lookup (d : Dict) (k : string) (v : value) :
  d !! k = Some v → dict_truthy d = true.
Proof.
  intros Hk. unfold dict_truthy. rewrite bool_decide_eq_false_2; [done|].
  intros ->. by rewrite lookup_empty in Hk.
Qed.

Lemma dict_truthy_key (k : string) : dict_truthy {[ "id" := VStr k ]} = true.
Proof. apply (dict_truthy_lookup _ "id" (VStr k)), lookup_singleton_eq. Qed.

Section OnDynamoDB.
Context `{!UpdateLanguage} `{!Format}.

Lemma insert_run (self : t) (item : Dict) (k : string) (h : option exn)
    (w : world rows) :
  item !! "id" = Some (VStr k) →
  insert self item h w
  = (Returned tt,
     MkWorld (<[k := item]> (store w))
       (trace w ++ [Called (PutItem item) (Returned empty_response)])).
Proof.
  intros Hk%key_of_Some.
  unfold insert, try_except_ClientError, call. simpl.
  unfold put_item. by rewrite Hk.
Qed.

Lemma find_by_id_present (self : t) (item_id : string) (item : Dict)
    (h : option exn) (w : world rows) :
  store w !! item_id = Some item →
  dict_truthy item = true →
  find_by_id self item_id h w
  = (Returned item,
     MkWorld (store w)
       (trace w ++
          [Called (GetItem {[ "id" := VStr item_id ]})
             (Returned {| Item := Some item; Attributes := None;
                          Items := None; LastEvaluatedKey := None |})])).
Proof.
  intros Hrow Htrue.
  unfold find_by_id, try_except_ClientError, call. simpl.
  unfold get_item. rewrite key_id_singleton. simpl.
  by rewrite Hrow, Htrue.
Qed.

Lemma find_by_id_absent (self : t) (item_id : string) (h : option exn)
    (w : world rows) :
  store w !! item_id = None →
  find_by_id self item_id h w
  = (Raised (default (RuntimeError "No active exception to reraise") h),
     MkWorld (store w)
       (trace w ++
          [Called (GetItem {[ "id" := VStr item_id ]})
             (Returned empty_response);
           Logged (not_found_msg self item_id)])).
Proof.
  intros Hrow.
  unfold find_by_id, try_except_ClientError, call. simpl.
  unfold get_item. rewrite key_id_singleton. simpl. rewrite Hrow.
  run_monad. rewrite <- app_assoc. by destruct h.
Qed.

(** C1.  On the DynamoDB table, an item that [insert] has written is what
    [find_by_id] returns for the ["id"] of that item, in the world [insert]
    left; the lookup leaves the table as it is. *)
Theorem insert_then_find_by_id (self : t) (item : Dict) (item_id : string)
    (h h' : option exn) (w w1 : world rows) :
  insert self item h w = (Returned tt, w1) →
  item !! "id" = Some (VStr item_id) →
  ∃ w2, find_by_id self item_id h' w1 = (Returned item, w2)
        ∧ store w2 = store w1.
Proof.
  intros Hinsert Hid. rewrite (insert_run _ _ _ _ _ Hid) in Hinsert.
  injection Hinsert as <-.
  rewrite (find_by_id_present _ _ item).
  - by eexists.
  - apply lookup_insert_eq.
  - by apply (dict_truthy_lookup _ _ _ Hid).
Qed.

Lemma delete_run (self : t) (item_id : string) (h : option exn)
    (w : world rows) :
  delete self item_id h w
  = (Returned tt,
     MkWorld (base.delete item_id (store w))
       (trace w ++
          [Called (DeleteItem {[ "id" := VStr item_id ]})
             (Returned empty_response)])).
Proof.
  unfold delete, try_except_ClientError, call. simpl.
  unfold delete_item. by rewrite key_id_singleton.
Qed.

(** C8.  On the DynamoDB table, [delete] returns for every id, present or
    not, after one call and without logging; the table it leaves has no
    row for the id and is the table it found when the id was absent.  A
    second [delete] of the same id returns as well and leaves the table as
    the first one left it. *)
Theorem delete_is_idempotent (self : t) (item_id : string)
    (h h' : option exn) (w : world rows) :
  let first := delete self item_id h w in
  let second := delete self item_id h' first.2 in
  first.1 = Returned tt
  ∧ trace first.2
    = trace w ++ [Called (DeleteItem {[ "id" := VStr item_id ]})
                    (Returned empty_response)]
  ∧ store first.2 !! item_id = None
  ∧ (∀ other, other ≠ item_id → store first.2 !! other = store w !! other)
  ∧ (store w !! item_id = None → store first.2 = store w)
  ∧ second.1 = Returned tt
  ∧ store second.2 = store first.2
  ∧ trace second.2
    = trace first.2 ++ [Called (DeleteItem {[ "id" := VStr item_id ]})
                          (Returned empty_response)].
Proof.
  simpl. rewrite !delete_run. simpl. split_and!; try done.
  - apply lookup_delete_eq.
  - intros other Hother. by apply lookup_delete_ne.
  - apply delete_id.
  - apply delete_id, lookup_delete_eq.
Qed.

Lemma search_run (self : t) (field value : string) (h : option exn)
    (w : world rows) :
  let refusal :=
    ValidationException
      "Either the KeyConditions or KeyConditionExpression parameter must be specified in the request." in
  search self field value h w
  = (Raised refusal,
     MkWorld (store w)
       (trace w ++
          [Called (Query None (Some (Contains (Attr field) (VStr value))))
             (Raised refusal);
           error_log (search_msg field value) "ValidationException"
             "Either the KeyConditions or KeyConditionExpression parameter must be specified in the request."])).
Proof.
  unfold search, try_except_ClientError, call. simpl.
  run_monad. by rewrite <- app_assoc.
Qed.

Lemma effective_condition_absent (condition_expression : option ConditionBase) :
  holds (effective_condition condition_expression) ∅ = false.
Proof. by destruct condition_expression. Qed.

Lemma effective_condition_present (condition_expression : option ConditionBase)
    (current : option Dict) :
  holds (effective_condition condition_expression) (default ∅ current) = true →
  ∃ old, current = Some old ∧ is_Some (old !! "id").
Proof.
  destruct current as [old|]; [|by rewrite effective_condition_absent].
  intros Hholds. exists old. split; [done|].
  destruct condition_expression; simpl in Hholds.
  - apply andb_true_iff in Hholds as [Hid _]. by apply bool_decide_eq_true in Hid.
  - by apply bool_decide_eq_true in Hholds.
Qed.

Lemma update_request (self : t) (item_id ue : string) (av : Dict)
    (ce : option ConditionBase) (an : gmap string string) (h : option exn)
    (w : world rows) :
  update self item_id ue av ce an h w
  = try_except_ClientError
      (call (UpdateItem {[ "id" := VStr item_id ]} ue an av
               (effective_condition ce) "UPDATED_NEW"))
      (λ error_code error_msg,
         log_and_reraise (update_msg self item_id) error_code error_msg)
      (λ response,
         match Attributes response with
         | Some attributes => ret attributes
         | None => raise (KeyError "Attributes")
         end) h w.
Proof. unfold update. by destruct ce. Qed.

(** On the DynamoDB table, [update] on an id that has no row raises a
    [ClientError] after logging it and leaves the table as it is. *)
Lemma update_absent (self : t) (item_id ue : string) (av : Dict)
    (ce : option ConditionBase) (an : gmap string string) (h : option exn)
    (w : world rows) :
  store w !! item_id = None →
  ∃ code message,
    update self item_id ue av ce an h w
    = (Raised (ClientError code message),
       MkWorld (store w)
         (trace w ++
            [Called (UpdateItem {[ "id" := VStr item_id ]} ue an av
                       (effective_condition ce) "UPDATED_NEW")
               (Raised (ClientError code message));
             error_log (update_msg self item_id) code message]))
    ∧ (update_accepted ue an av →
       ClientError code message = ConditionalCheckFailedException).
Proof.
  intros Hrow. rewrite update_request.
  unfold try_except_ClientError, call. simpl.
  unfold update_item, update_accepted. rewrite key_id_singleton.
  destruct (parse_update ue an av) as [delta|].
  - case_bool_decide as Hkey.
    + eexists _, _. split; [run_monad; by rewrite <- app_assoc|].
      intros (delta' & [= <-] & Hid). rewrite Hid in Hkey.
      by destruct Hkey.
    + rewrite Hrow. simpl. rewrite effective_condition_absent.
      eexists _, _. split; [run_monad; by rewrite <- app_assoc|done].
  - eexists _, _. split; [run_monad; by rewrite <- app_assoc|].
    by intros (delta' & [=] & _).
Qed.

(** C6.  On the DynamoDB table, [update] on an id that has no row raises:
    a [ClientError] that was logged.  The table is the same after the call,
    so no row was made for the id.  For every request whose update
    expression the store accepts, the error is
    [ConditionalCheckFailedException]. *)
Theorem update_of_absent_id_fails (self : t) (item_id : string)
    (update_expression : string) (expression_attribute_values : Dict)
    (condition_expression : option ConditionBase)
    (expression_attribute_names : gmap string string)
    (h : option exn) (w : world rows) :
  store w !! item_id = None →
  update_accepted update_expression expression_attribute_names
    expression_attribute_values →
  let run := update self item_id update_expression
               expression_attribute_values condition_expression
               expression_attribute_names h w in
  run.1 = Raised ConditionalCheckFailedException
  ∧ store run.2 = store w
  ∧ store run.2 !! item_id = None
  ∧ trace run.2
    = trace w ++
        [Called (UpdateItem {[ "id" := VStr item_id ]} update_expression
                   expression_attribute_names expression_attribute_values
                   (effective_condition condition_expression) "UPDATED_NEW")
           (Raised ConditionalCheckFailedException);
         error_log (update_msg self item_id)
           "ConditionalCheckFailedException"
           "The conditional request failed"].
Proof.
  intros Hrow Haccepted.
  destruct (update_absent self item_id update_expression
              expression_attribute_values condition_expression
              expression_attribute_names h w Hrow)
    as (code & message & -> & Herror).
  specialize (Herror Haccepted). injection Herror as -> ->. done.
Qed.

Lemma lookup_updated_new (delta : gmap string (option (Dict → value)))
    (old : Dict) (a : string) :
  updated_new delta old !! a
  = match delta !! a with
    | Some (Some f) => Some (f old)
    | _ => None
    end.
Proof.
  unfold updated_new. rewrite lookup_omap.
  by destruct (delta !! a) as [[f|]|].
Qed.

Lemma lookup_apply_update (delta : gmap string (option (Dict → value)))
    (old : Dict) (a : string) :
  apply_update delta old !! a
  = match delta !! a with
    | Some (Some f) => Some (f old)
    | Some None => None
    | None => old !! a
    end.
Proof.
  unfold apply_update. rewrite lookup_merge.
  by destruct (delta !! a) as [[f|]|], (old !! a).
Qed.

(** C7.  On the DynamoDB table, when [update] returns, the row existed,
    the store has replaced it by the updated item, and the value returned
    holds, for each attribute the update expression writes, the value the
    attribute has after the update, and nothing else: it is a part of the
    updated item that has no ["id"], while the updated item has one. *)
Theorem update_returns_the_written_attributes (self : t) (item_id : string)
    (update_expression : string) (expression_attribute_values : Dict)
    (condition_expression : option ConditionBase)
    (expression_attribute_names : gmap string string)
    (h : option exn) (w w' : world rows) (attributes : Dict) :
  update self item_id update_expression expression_attribute_values
    condition_expression expression_attribute_names h w
  = (Returned attributes, w') →
  ∃ old delta,
    store w !! item_id = Some old
    ∧ parse_update update_expression expression_attribute_names
        expression_attribute_values = Some delta
    ∧ store w' = <[item_id := apply_update delta old]> (store w)
    ∧ (∀ a, attributes !! a
            = match delta !! a with
              | Some (Some f) => Some (f old)
              | _ => None
              end)
    ∧ attributes ⊆ apply_update delta old
    ∧ attributes !! "id" = None
    ∧ is_Some (apply_update delta old !! "id").
Proof.
  rewrite update_request. unfold try_except_ClientError, call. simpl.
  unfold update_item. rewrite key_id_singleton.
  destruct (parse_update _ _ _) as [delta|] eqn:Hparse;
    [|run_monad; by intros [=]].
  case_bool_decide as Hkey; [run_monad; by intros [=]|].
  destruct (holds _ _) eqn:Hholds; [|run_monad; by intros [=]].
  apply effective_condition_present in Hholds as (old & Hrow & Hid).
  rewrite Hrow. simpl.
  destruct (nonempty _) as [attrs|] eqn:Hattrs; simpl; [|by intros [=]].
  intros [= -> <-]. exists old, delta.
  assert (attributes = updated_new delta old) as ->.
  { unfold nonempty in Hattrs. by case_bool_decide; simplify_eq. }
  assert (delta !! "id" = None) as Hnone.
  { by destruct (delta !! "id") eqn:E; [destruct Hkey; eexists|]. }
  split_and!; try done.
  - intros a. apply lookup_updated_new.
  - apply map_subseteq_spec. intros a v.
    rewrite lookup_updated_new, lookup_apply_update.
    by destruct (delta !! a) as [[f|]|].
  - by rewrite lookup_updated_new, Hnone.
  - by rewrite lookup_apply_update, Hnone.
Qed.

Lemma after_app (l1 l2 : list (string * Dict)) (k : string) (v : Dict) :
  NoDup (l1 ++ (k, v) :: l2).*1 →
  after k (l1 ++ (k, v) :: l2) = Some l2.
Proof.
  induction l1 as [|[k' v'] l1 IH]; simpl.
  - intros _. by rewrite decide_True.
  - intros [Hnotin Hnodup]%NoDup_cons. rewrite decide_False; [by apply IH|].
    intros ->. apply Hnotin. rewrite fmap_app, elem_of_app. right.
    simpl. apply elem_of_cons. by left.
Qed.

Lemma follows_cursor_nonempty (limit : Z) (start : option Dict)
    (evs : list event) :
  follows_cursor limit start evs → (1 ≤ length evs)%nat.
Proof. destruct evs; simpl; [done|lia]. Qed.

(** The loop of [find_all] on the DynamoDB table, entered with the rows
    [done] already read and the rows [rest] still to read. *)
Lemma scan_loop_pages (tbl : rows) (limit : Z) (h : option exn) :
  1 ≤ limit →
  ∀ (rest done : list (string * Dict)) (items : list Dict)
    (scan_args : ScanArgs) (start_key : option Dict) (tr : list event),
    map_to_list tbl = done ++ rest →
    Limit scan_args = limit →
    match start_key with
    | None => done = [] ∧ ExclusiveStartKey scan_args = None
    | Some key =>
        ∃ k v done', key = {[ "id" := VStr k ]} ∧ done = done' ++ [(k, v)]
    end →
    ∃ evs,
      (∀ fuel, (length rest < fuel)%nat →
         scan_loop fuel items scan_args start_key h (MkWorld tbl tr)
         = Some (Returned (items ++ rest.*2), MkWorld tbl (tr ++ evs)))
      ∧ follows_cursor limit start_key evs
      ∧ (Z.to_nat limit ≤ length rest → 2 ≤ length evs)%nat.
Proof.
  intros Hlimit rest.
  remember (length rest) as m eqn:Hm. revert rest Hm.
  induction m as [m IH] using lt_wf_ind.
  intros rest -> done items scan_args start_key tr Hall Hlim Hstart.
  assert ((if truthy start_key
           then MkScanArgs (Limit scan_args) start_key
           else scan_args) = MkScanArgs limit start_key) as Hargs.
  { destruct start_key as [key|]; simpl.
    - destruct Hstart as (k & v & done' & -> & _).
      by rewrite dict_truthy_key, Hlim.
    - destruct Hstart as [_ Hnone]. destruct scan_args; simpl in *.
      by subst. }
  assert (match start_key with
          | None => Some (map_to_list tbl)
          | Some Key => k ← key_id Key; after k (map_to_list tbl)
          end = Some rest) as Hrest.
  { destruct start_key as [key|].
    - destruct Hstart as (k & v & done' & -> & ->).
      rewrite key_id_singleton. simpl.
      rewrite Hall, <- app_assoc. apply after_app.
      replace (done' ++ (k, v) :: rest) with (map_to_list tbl)
        by (by rewrite Hall, <- app_assoc).
      apply NoDup_fst_map_to_list.
    - destruct Hstart as [-> _]. by rewrite Hall. }
  set (n := Z.to_nat limit). assert (1 ≤ n)%nat as Hn by lia.
  set (page := take n rest).
  destruct (decide (n ≤ length rest)%nat) as [Hfull|Hshort].
  - destruct (last page) as [[k v]|] eqn:Hlast.
    2:{ apply last_None in Hlast.
        apply (f_equal length) in Hlast. unfold page in Hlast.
        rewrite length_take in Hlast. simpl in Hlast. lia. }
    pose proof Hlast as [page' Hpage]%last_Some.
    set (answer := {| Item := None; Attributes := None;
                      Items := Some page.*2;
                      LastEvaluatedKey := Some {[ "id" := VStr k ]} |}).
    destruct (IH (length (drop n rest))) with
      (rest := drop n rest) (done := done ++ page)
      (items := items ++ page.*2) (scan_args := MkScanArgs limit start_key)
      (start_key := Some ({[ "id" := VStr k ]} : Dict))
      (tr := tr ++ [Called (Scan (MkScanArgs limit start_key))
                      (Returned answer)])
      as (evs & Hrun & Hfollows & _).
    + rewrite length_drop. lia.
    + done.
    + rewrite <- app_assoc. unfold page. by rewrite take_drop.
    + done.
    + exists k, v, (done ++ page'). by rewrite Hpage, app_assoc.
    + exists (Called (Scan (MkScanArgs limit start_key)) (Returned answer)
                :: evs).
      split_and!.
      * intros [|fuel] Hfuel; [lia|].
        simpl. rewrite Hargs. unfold call. simpl. unfold scan. simpl.
        rewrite decide_False by lia. rewrite Hrest. fold n page.
        rewrite decide_True by done. rewrite Hlast. simpl.
        rewrite Hrun by (rewrite length_drop; lia).
        do 2 f_equal.
        -- rewrite <- app_assoc, <- fmap_app. unfold page.
           by rewrite take_drop.
        -- by rewrite <- app_assoc.
      * done.
      * intros _. apply follows_cursor_nonempty in Hfollows. simpl. lia.
  - exists [Called (Scan (MkScanArgs limit start_key))
              (Returned {| Item := None; Attributes := None;
                           Items := Some rest.*2;
                           LastEvaluatedKey := None |})].
    split_and!; [|done|lia].
    intros [|fuel] Hfuel; [lia|].
    simpl. rewrite Hargs. unfold call. simpl. unfold scan. simpl.
    rewrite decide_False by lia. rewrite Hrest. fold n.
    rewrite decide_False by done. by rewrite take_ge by lia.
Qed.

(** C4.  On the DynamoDB table, for a page limit of at least 1 and a table
    with more rows than the limit, [find_all] returns, whatever it is given
    as [start_key] and with any fuel above the number of rows.  It makes at
    least two calls, all answered, each one a scan with the limit and the
    cursor of the answer before it, up to the answer that has no cursor.
    What it returns is the items of the rows in the order of the scan, each
    row once: as many items as the table has rows, no item twice, and the
    item of every row.  The table is left as it was. *)
Theorem find_all_returns_every_item (self : t) (start_key : option Dict)
    (limit : Z) (h : option exn) (tbl : rows) (tr : list event) :
  table_wf tbl →
  1 ≤ limit < Z.of_nat (size tbl) →
  ∃ items evs,
    (∀ fuel, (size tbl < fuel)%nat →
       find_all self start_key limit fuel h (MkWorld tbl tr)
       = Some (Returned items, MkWorld tbl (tr ++ evs)))
    ∧ follows_cursor limit None evs
    ∧ (2 ≤ length evs)%nat
    ∧ items = (map_to_list tbl).*2
    ∧ length items = size tbl
    ∧ NoDup items
    ∧ (∀ item, item ∈ items ↔ ∃ k, tbl !! k = Some item).
Proof.
  intros Hwf [Hlimit Hsize].
  destruct (scan_loop_pages tbl limit h Hlimit (map_to_list tbl) [] []
              (MkScanArgs limit None) None tr)
    as (evs & Hrun & Hfollows & Hcalls); try done.
  exists ((map_to_list tbl).*2), evs. split_and!; try done.
  - intros fuel Hfuel. unfold find_all.
    by rewrite Hrun by (by rewrite length_map_to_list).
  - apply Hcalls. rewrite length_map_to_list. lia.
  - by rewrite length_fmap, length_map_to_list.
  - apply (NoDup_fmap_1 key_of).
    assert (key_of <$> (map_to_list tbl).*2
            = Some <$> (map_to_list tbl).*1) as ->.
    { rewrite <- !list_fmap_compose. apply list_fmap_ext.
      intros i [k item] Hi%list_elem_of_lookup_2%elem_of_map_to_list; simpl.
      apply key_of_Some. by apply (map_Forall_lookup_1 _ _ _ _ Hwf). }
    apply (NoDup_fmap_2 _), NoDup_fst_map_to_list.
  - intros item. rewrite list_elem_of_fmap. split.
    + intros ([k item'] & -> & Hin%elem_of_map_to_list). by exists k.
    + intros [k Hk]. exists (k, item). by rewrite elem_of_map_to_list.
Qed.

(** *** The invariant of the table *)

Lemma put_item_wf (item : Dict) (tbl : rows) :
  table_wf tbl → table_wf (put_item item tbl).2.
Proof.
  intros Hwf. unfold put_item.
  destruct (key_of item) as [k|] eqn:Hk; [|done].
  apply map_Forall_insert_2; [|done]. by apply key_of_Some.
Qed.

Lemma batch_write_item_wf (chunk : list Dict) (tbl : rows) :
  table_wf tbl → table_wf (batch_write_item chunk tbl).2.
Proof.
  intros Hwf. unfold batch_write_item.
  destruct (mapM key_of chunk) as [keys|] eqn:Hkeys; [|done].
  case_bool_decide as Hdup; [|done]. simpl. clear Hdup.
  apply mapM_Some in Hkeys. revert tbl Hwf.
  induction Hkeys as [|item k chunk keys Hk _ IH]; intros tbl Hwf; [done|].
  simpl. apply IH. apply map_Forall_insert_2; [|done]. by apply key_of_Some.
Qed.

Lemma batch_writer_wf (data buffer : list Dict) (tbl : rows) :
  table_wf tbl → table_wf (batch_writer buffer data tbl).2.
Proof.
  revert buffer tbl.
  induction data as [|item data IH]; intros buffer tbl Hwf; simpl.
  - destruct buffer; [done|]. by apply batch_write_item_wf.
  - case_decide; [|by apply IH].
    pose proof (batch_write_item_wf (buffer ++ [item]) tbl Hwf) as Hchunk.
    destruct (batch_write_item _ tbl) as [[?|?] tbl']; [by apply IH|done].
Qed.

Lemma update_item_wf (Key : Dict) (ue : string) (an : gmap string string)
    (av : Dict) (cond : ConditionBase) (rv : string) (tbl : rows) :
  table_wf tbl → table_wf (update_item Key ue an av cond rv tbl).2.
Proof.
  intros Hwf. unfold update_item.
  destruct (key_id Key) as [k|]; [|done].
  destruct (parse_update ue an av) as [delta|]; [|done].
  case_bool_decide as Hkey; [done|].
  destruct (holds cond _); [|done].
  destruct (return_values _ _ _ _ _); [|done]. simpl.
  apply map_Forall_insert_2; [|done].
  rewrite lookup_apply_update.
  destruct (delta !! "id") eqn:Hid; [destruct Hkey; by eexists|].
  destruct (tbl !! k) as [old|] eqn:Hrow; simpl.
  - by apply (map_Forall_lookup_1 _ _ _ _ Hwf).
  - apply lookup_singleton_eq.
Qed.

(** Every call leaves a table whose rows are stored under their ["id"]. *)
Lemma execute_wf (r : Request) (tbl : rows) :
  table_wf tbl → table_wf (execute r tbl).2.
Proof.
  intros Hwf. destruct r; simpl.
  - by apply put_item_wf.
  - by apply batch_writer_wf.
  - unfold get_item. by destruct (key_id _).
  - by apply update_item_wf.
  - unfold scan. by repeat case_match.
  - unfold delete_item. destruct (key_id _); [|done]. by apply map_Forall_delete.
  - unfold query. by repeat case_match.
Qed.
Lemma call_wf (r : Request) (h : option exn) (w : world rows) :
  table_wf (store w) → table_wf (store (call r h w).2).
Proof.
  intros Hwf. unfold call.
  pose proof (execute_wf r (store w) Hwf) as Hexec.
  by destruct (execute r (store w)).
Qed.

End OnDynamoDB.

(** ** The properties on the sample data *)

(** C1 on the sample data: [u1] written to the empty table and read back. *)
Lemma insert_then_find_by_id_witness :
  (@insert rows sample.store sample.format sample.self sample.u1 None
     sample.empty_world
   = (Returned tt,
      MkWorld {[ "u1" := sample.u1 ]}
        [Called (PutItem sample.u1) (Returned empty_response)])
   ∧ sample.u1 !! "id" = Some (VStr "u1"))
  ∧ ∃ w2,
      @find_by_id rows sample.store sample.self "u1" None
        (MkWorld {[ "u1" := sample.u1 ]}
           [Called (PutItem sample.u1) (Returned empty_response)])
      = (Returned sample.u1, w2)
      ∧ store w2 = {[ "u1" := sample.u1 ]}.
Proof.
  split; [split; reflexivity|].
  apply (@insert_then_find_by_id sample.language sample.format
           sample.self sample.u1 "u1" None None sample.empty_world);
    reflexivity.
Defined.

(** C2, the code at an id that was never written, at an id that was
    deleted, and at an id that was never written when the caller is
    handling an exception of its own.  [find_by_id] logs that the item was
    not found and raises: the [RuntimeError] Python makes of a bare [raise]
    with no exception being handled in the first two runs, the exception of
    the caller in the third.  No run raises an exception that says that the
    item is missing. *)
Theorem find_by_id_of_absent_id_raises_RuntimeError :
  @find_by_id rows sample.store sample.self "ghost" None sample.empty_world
  = (Raised (RuntimeError "No active exception to reraise"),
     MkWorld ∅
       [Called (GetItem {[ "id" := VStr "ghost" ]}) (Returned empty_response);
        Logged "Item (ghost) não encontrado na tabela (users)."])
  ∧ (@find_by_id rows sample.store sample.self "u1" None
       (@delete rows sample.store sample.self "u1" None
          (@insert rows sample.store sample.format sample.self sample.u1
             None sample.empty_world).2).2).1
    = Raised (RuntimeError "No active exception to reraise")
  ∧ (@find_by_id rows sample.store sample.self "ghost"
       (Some (OtherError "ZeroDivisionError")) sample.empty_world).1
    = Raised (OtherError "ZeroDivisionError").
Proof. split_and!; reflexivity. Qed.

(** C4 on the sample data: the three rows of [users] read with a limit
    of 2. *)
Lemma find_all_returns_every_item_witness :
  (table_wf sample.users ∧ 1 ≤ 2 < Z.of_nat (size sample.users))
  ∧ ∃ items evs,
      (∀ fuel, (size sample.users < fuel)%nat →
         @find_all rows sample.store sample.self None 2 fuel None
           (MkWorld sample.users [])
         = Some (Returned items, MkWorld sample.users ([] ++ evs)))
      ∧ follows_cursor 2 None evs
      ∧ (2 ≤ length evs)%nat
      ∧ items = (map_to_list sample.users).*2
      ∧ length items = size sample.users
      ∧ NoDup items
      ∧ (∀ item, item ∈ items ↔ ∃ k, sample.users !! k = Some item).
Proof.
  assert (table_wf sample.users) as Hwf.
  { apply (bool_decide_unpack _). vm_compute. exact I. }
  assert (1 ≤ 2 < Z.of_nat (size sample.users)) as Hlimit.
  { split; [lia|]. vm_compute. reflexivity. }
  split; [done|].
  exact (@find_all_returns_every_item sample.language sample.self None 2
           None sample.users [] Hwf Hlimit).
Defined.

(** C5, the code on the table [users], where the item [u1] has the status
    ["active"], which contains ["act"]: [search] raises the store's
    refusal of a query that has no key condition, and returns no item. *)
Theorem search_raises_where_an_item_matches :
  sample.users !! "u1" = Some sample.u1
  ∧ holds (contains (Attr "status") (VStr "act")) sample.u1 = true
  ∧ @search rows sample.store sample.self "status" "act" None
      sample.users_world
    = (Raised
         (ValidationException
            "Either the KeyConditions or KeyConditionExpression parameter must be specified in the request."),
       MkWorld sample.users
         [Called (Query None (Some (Contains (Attr "status") (VStr "act"))))
            (Raised
               (ValidationException
                  "Either the KeyConditions or KeyConditionExpression parameter must be specified in the request."));
          error_log (search_msg "status" "act") "ValidationException"
            "Either the KeyConditions or KeyConditionExpression parameter must be specified in the request."]).
Proof. split_and!; reflexivity. Qed.

(** C6 on the sample data: an update of the status of ["zz"], an id that
    has no row in [users]. *)
Lemma update_of_absent_id_fails_witness :
  (sample.users !! "zz" = None
   ∧ @update_accepted sample.language "set #S=:s" {[ "#S" := "status" ]}
       {[ ":s" := VStr "gone" ]})
  ∧ (@update rows sample.store sample.self "zz" "set #S=:s"
       {[ ":s" := VStr "gone" ]} None {[ "#S" := "status" ]} None
       sample.users_world).1
    = Raised ConditionalCheckFailedException.
Proof.
  assert (sample.users !! "zz" = None) as Hrow by reflexivity.
  assert (@update_accepted sample.language "set #S=:s" {[ "#S" := "status" ]}
            {[ ":s" := VStr "gone" ]}) as Haccepted.
  { eexists. split; reflexivity. }
  split; [done|].
  apply (@update_of_absent_id_fails sample.language sample.self "zz"
           "set #S=:s" {[ ":s" := VStr "gone" ]} None {[ "#S" := "status" ]}
           None sample.users_world Hrow Haccepted).
Defined.

(** C7 on the sample data: an update of the status of [u1], which returns
    the new status only. *)
Lemma update_returns_the_written_attributes_witness :
  (@update rows sample.store sample.self "u1" "set #S=:s"
     {[ ":s" := VStr "gone" ]} None {[ "#S" := "status" ]} None
     sample.users_world).1
  = Returned {[ "status" := VStr "gone" ]}
  ∧ ∃ old delta,
      sample.users !! "u1" = Some old
      ∧ @parse_update sample.language "set #S=:s" {[ "#S" := "status" ]}
          {[ ":s" := VStr "gone" ]} = Some delta
      ∧ {[ "status" := VStr "gone" ]} ⊆ apply_update delta old.
Proof.
  assert (@update rows sample.store sample.self "u1" "set #S=:s"
            {[ ":s" := VStr "gone" ]} None {[ "#S" := "status" ]} None
            sample.users_world
          = (Returned {[ "status" := VStr "gone" ]},
             (@update rows sample.store sample.self "u1" "set #S=:s"
                {[ ":s" := VStr "gone" ]} None {[ "#S" := "status" ]} None
                sample.users_world).2)) as Hrun by reflexivity.
  split; [by rewrite Hrun|].
  destruct (@update_returns_the_written_attributes sample.language
              sample.self "u1" "set #S=:s" {[ ":s" := VStr "gone" ]} None
              {[ "#S" := "status" ]} None sample.users_world _ _ Hrun)
    as (old & delta & Hrow & Hparse & _ & _ & Hpart & _).
  by exists old, delta.
Defined.

(** * Further properties *)

(** ** Of the methods on every store *)

Section EveryStoreFurther.
Context {S : Type} `{!Table S} `{!Format}.

(** X1.  Whatever the store, when the answer to the get has no ['Item'] or
    an empty one, [find_by_id] returns nothing: it logs that the item was
    not found and runs the bare [raise], which raises the exception the
    caller is handling, and a [RuntimeError] when the caller is handling
    none. *)
Theorem find_by_id_without_item (self : t) (item_id : string)
    (h : option exn) (w : world S) (response : Response) (s' : S) :
  execute (GetItem {[ "id" := VStr item_id ]}) (store w)
  = (Returned response, s') →
  truthy (Item response) = false →
  find_by_id self item_id h w
  = (Raised (default (RuntimeError "No active exception to reraise") h),
     MkWorld s'
       (trace w ++
          [Called (GetItem {[ "id" := VStr item_id ]}) (Returned response);
           Logged (not_found_msg self item_id)])).
Proof.
  intros Hexec Hfalse.
  unfold find_by_id, try_except_ClientError, call. rewrite Hexec.
  destruct (Item response) as [item|]; simpl in Hfalse;
    [rewrite Hfalse|]; run_monad; rewrite <- app_assoc; by destruct h.
Qed.

(** X2.  Whatever the store, when [find_by_id] returns an item, the store
    answered the one call of the method, a get on [{'id': item_id}], with
    that item as ['Item']; the item is not empty, and nothing was
    logged. *)
Theorem find_by_id_returns_the_item_sent (self : t) (item_id : string)
    (h : option exn) (w w' : world S) (item : Dict) :
  find_by_id self item_id h w = (Returned item, w') →
  ∃ response,
    execute (GetItem {[ "id" := VStr item_id ]}) (store w)
    = (Returned response, store w')
    ∧ Item response = Some item
    ∧ item ≠ ∅
    ∧ trace w'
      = trace w ++
          [Called (GetItem {[ "id" := VStr item_id ]}) (Returned response)].
Proof.
  unfold find_by_id, try_except_ClientError, call.
  destruct (execute _ (store w)) as [[response|e] s'].
  - destruct (Item response) as [item'|] eqn:Hitem.
    + destruct (dict_truthy item') eqn:Htrue.
      * intros [= -> <-]. exists response. split_and!; try done.
        intros ->. by vm_compute in Htrue.
      * run_monad. by destruct h.
    + run_monad. by destruct h.
  - destruct e; run_monad; by intros [=].
Qed.

(** X3.  Whatever the store, when the answer to the update has no
    ['Attributes'], [update] raises [KeyError('Attributes')]: it logs
    nothing, and the store stays as the update left it. *)
Theorem update_without_attributes_raises_KeyError (self : t)
    (item_id : string) (update_expression : string)
    (expression_attribute_values : Dict)
    (condition_expression : option ConditionBase)
    (expression_attribute_names : gmap string string)
    (h : option exn) (w : world S) (response : Response) (s' : S) :
  execute (UpdateItem {[ "id" := VStr item_id ]} update_expression
             expression_attribute_names expression_attribute_values
             (effective_condition condition_expression) "UPDATED_NEW")
    (store w)
  = (Returned response, s') →
  Attributes response = None →
  update self item_id update_expression expression_attribute_values
    condition_expression expression_attribute_names h w
  = (Raised (KeyError "Attributes"),
     MkWorld s'
       (trace w ++
          [Called (UpdateItem {[ "id" := VStr item_id ]} update_expression
                     expression_attribute_names expression_attribute_values
                     (effective_condition condition_expression)
                     "UPDATED_NEW")
             (Returned response)])).
Proof.
  intros Hexec Hnone. unfold update, try_except_ClientError, call.
  replace (match condition_expression with
           | Some c => And (exists_ (Attr "id")) c
           | None => exists_ (Attr "id")
           end) with (effective_condition condition_expression)
    by by destruct condition_expression.
  by rewrite Hexec, Hnone.
Qed.

(** A method of the common shape that returns: its call was answered and
    what it returns is what the [else] part made of the answer. *)
Lemma try_call_returned {A} (msg : string) (r : Request)
    (orelse : Response → M S A) (h : option exn) (w w' : world S) (a : A) :
  try_except_ClientError (call r)
    (λ error_code error_msg, log_and_reraise msg error_code error_msg)
    orelse h w = (Returned a, w') →
  ∃ response s',
    execute r (store w) = (Returned response, s')
    ∧ orelse response h
        (MkWorld s' (trace w ++ [Called r (Returned response)]))
      = (Returned a, w').
Proof.
  unfold try_except_ClientError, call.
  destruct (execute r (store w)) as [[response|e] s']; [by eexists _, _|].
  destruct e as [code message| | |]; by intros [=].
Qed.

(** X5.  Whatever the store, when [insert], [update], [delete] or [search]
    returns, the method made one call, the store answered it, and nothing
    was logged; [update] returns the ['Attributes'] of the answer and
    [search] its ['Items']. *)
Theorem a_method_that_returns_made_one_call (self : t) (h : option exn)
    (w w' : world S) :
  (∀ item,
     insert self item h w = (Returned tt, w') →
     ∃ response,
       trace w' = trace w ++ [Called (PutItem item) (Returned response)])
  ∧ (∀ item_id ue av ce an attributes,
       update self item_id ue av ce an h w = (Returned attributes, w') →
       ∃ response,
         Attributes response = Some attributes
         ∧ trace w'
           = trace w ++
               [Called (UpdateItem {[ "id" := VStr item_id ]} ue an av
                          (effective_condition ce) "UPDATED_NEW")
                  (Returned response)])
  ∧ (∀ item_id,
       delete self item_id h w = (Returned tt, w') →
       ∃ response,
         trace w'
         = trace w ++
             [Called (DeleteItem {[ "id" := VStr item_id ]})
                (Returned response)])
  ∧ (∀ field value items,
       search self field value h w = (Returned items, w') →
       ∃ response,
         Items response = Some items
         ∧ trace w'
           = trace w ++
               [Called (Query None
                          (Some (Contains (Attr field) (VStr value))))
                  (Returned response)]).
Proof.
  split_and!.
  - intros item (response & s' & _ & [= <-])%try_call_returned.
    by exists response.
  - intros item_id ue av ce an attributes. unfold update.
    replace (match ce with
             | Some c => And (exists_ (Attr "id")) c
             | None => exists_ (Attr "id")
             end) with (effective_condition ce) by by destruct ce.
    intros (response & s' & _ & Helse)%try_call_returned.
    exists response. destruct (Attributes response); [|done].
    by injection Helse as -> <-.
  - intros item_id (response & s' & _ & [= <-])%try_call_returned.
    by exists response.
  - intros field value items.
    intros (response & s' & _ & Helse)%try_call_returned.
    exists response. destruct (Items response); [|done].
    by injection Helse as -> <-.
Qed.

Lemma pages_app (evs1 evs2 : list event) :
  pages (evs1 ++ evs2) = pages evs1 ++ pages evs2.
Proof.
  induction evs1 as [|[r [response|e]|msg] evs1 IH]; simpl; [done|..|done|done].
  by rewrite IH, app_assoc.
Qed.

Lemma scan_loop_returned (fuel : nat) (items : list Dict)
    (scan_args : ScanArgs) (start_key : option Dict) (h : option exn)
    (w w' : world S) (found : list Dict) :
  scan_loop fuel items scan_args start_key h w = Some (Returned found, w') →
  ∃ evs,
    trace w' = trace w ++ evs
    ∧ found = items ++ pages evs
    ∧ Forall (is_scan_of (Limit scan_args)) evs
    ∧ (1 ≤ length evs)%nat.
Proof.
  revert items scan_args start_key w.
  induction fuel as [|fuel IH]; intros items scan_args start_key w; [done|].
  simpl. unfold call.
  set (args := if truthy start_key then _ else _).
  assert (Limit args = Limit scan_args) as Hlimit.
  { unfold args. by destruct (truthy start_key). }
  assert (∀ response, is_scan_of (Limit scan_args)
                        (Called (Scan args) (Returned response))) as Hscan.
  { intros response. exists (ExclusiveStartKey args), response.
    rewrite <- Hlimit. by destruct args. }
  destruct (execute (Scan args) (store w)) as [[response|e] s']; [|done].
  destruct (LastEvaluatedKey response) as [key|].
  - intros (evs & Htrace & -> & Hall & _)%IH.
    exists (Called (Scan args) (Returned response) :: evs). split_and!.
    + rewrite Htrace. simpl. by rewrite <- app_assoc.
    + simpl. by rewrite app_assoc.
    + constructor; [done|]. by rewrite <- Hlimit.
    + simpl. lia.
  - intros [= <- <-]. exists [Called (Scan args) (Returned response)].
    split_and!; [done|simpl; by rewrite app_nil_r| |simpl; lia].
    by apply Forall_singleton.
Qed.

(** X6.  Whatever the store, when [find_all] returns, every call it made
    was a scan with the limit that the store answered, there was at least
    one, and what it returns is the ['Items'] of the answers put end to end
    in the order of the calls, an answer without ['Items'] counting for
    nothing. *)
Theorem find_all_returns_the_pages (self : t) (start_key : option Dict)
    (limit : Z) (fuel : nat) (h : option exn) (w w' : world S)
    (items : list Dict) :
  find_all self start_key limit fuel h w = Some (Returned items, w') →
  ∃ evs,
    trace w' = trace w ++ evs
    ∧ items = pages evs
    ∧ Forall (is_scan_of limit) evs
    ∧ (1 ≤ length evs)%nat.
Proof.
  unfold find_all.
  destruct (scan_loop _ _ _ _ _ _) as [[[found|e] w1]|] eqn:Hloop;
    [|destruct e; run_monad; by intros [=]|done].
  intros [= <- <-]. by apply scan_loop_returned in Hloop.
Qed.

Lemma scan_loop_endless (fuel : nat) (items : list Dict)
    (scan_args : ScanArgs) (start_key : option Dict) (h : option exn)
    (w : world S) :
  (∀ scan_args s, ∃ response s',
     execute (Scan scan_args) s = (Returned response, s')
     ∧ is_Some (LastEvaluatedKey response)) →
  scan_loop fuel items scan_args start_key h w = None.
Proof.
  intros Hcursor. revert items scan_args start_key w.
  induction fuel as [|fuel IH]; intros items scan_args start_key w; [done|].
  simpl. unfold call.
  set (args := if truthy start_key then _ else _).
  destruct (Hcursor args (store w)) as (response & s' & -> & [key Hkey]).
  rewrite Hkey. apply IH.
Qed.

(** X7.  Whatever the store, the loop of [find_all] ends only on an answer
    without ['LastEvaluatedKey'] or on an exception: against a store that
    answers every scan with a cursor, [find_all] is still running after any
    number of pages. *)
Theorem find_all_runs_while_the_store_sends_a_cursor (self : t)
    (start_key : option Dict) (limit : Z) (h : option exn) (w : world S) :
  (∀ scan_args s, ∃ response s',
     execute (Scan scan_args) s = (Returned response, s')
     ∧ is_Some (LastEvaluatedKey response)) →
  ∀ fuel, find_all self start_key limit fuel h w = None.
Proof.
  intros Hcursor fuel. unfold find_all.
  by rewrite scan_loop_endless.
Qed.

End EveryStoreFurther.

(** ** Of the methods on the DynamoDB table *)

Section OnDynamoDBFurther.
Context `{!UpdateLanguage} `{!Format}.

Lemma scan_table (scan_args : ScanArgs) (tbl : rows) :
  (scan scan_args tbl).2 = tbl.
Proof. unfold scan. by repeat case_match. Qed.

Lemma scan_loop_table (fuel : nat) (items : list Dict)
    (scan_args : ScanArgs) (start_key : option Dict) (h : option exn)
    (w : world rows) (run : outcome (list Dict) * world rows) :
  scan_loop fuel items scan_args start_key h w = Some run →
  store run.2 = store w.
Proof.
  revert items scan_args start_key w.
  induction fuel as [|fuel IH]; intros items scan_args start_key w; [done|].
  simpl. unfold call. simpl.
  set (args := if truthy start_key then _ else _).
  pose proof (scan_table args (store w)) as Hscan.
  destruct (scan args (store w)) as [[response|e] tbl'];
    simpl in Hscan; subst tbl'.
  - destruct (LastEvaluatedKey response).
    + by intros ->%IH.
    + by intros [= <-].
  - by intros [= <-].
Qed.

Lemma insert_table (self : t) (item : Dict) (h : option exn)
    (w : world rows) :
  store (insert self item h w).2 = (put_item item (store w)).2.
Proof.
  unfold insert, try_except_ClientError, call. simpl.
  by destruct (put_item item (store w)) as [[response|[]] tbl'].
Qed.

Lemma update_table (self : t) (item_id ue : string) (av : Dict)
    (ce : option ConditionBase) (an : gmap string string) (h : option exn)
    (w : world rows) :
  store (update self item_id ue av ce an h w).2
  = (update_item {[ "id" := VStr item_id ]} ue an av
       (effective_condition ce) "UPDATED_NEW" (store w)).2.
Proof.
  rewrite update_request. unfold try_except_ClientError, call. simpl.
  destruct (update_item _ _ _ _ _ _ _) as [[response|[]] tbl']; try done.
  by destruct (Attributes response).
Qed.

(** What [find_by_id] answers is read in the row of the id. *)
Lemma find_by_id_outcome (self : t) (item_id : string) (h : option exn)
    (w : world rows) :
  (find_by_id self item_id h w).1
  = match store w !! item_id with
    | Some item =>
        if dict_truthy item then Returned item
        else Raised (default (RuntimeError "No active exception to reraise") h)
    | None =>
        Raised (default (RuntimeError "No active exception to reraise") h)
    end
  ∧ store (find_by_id self item_id h w).2 = store w.
Proof.
  destruct (store w !! item_id) as [item|] eqn:Hrow.
  - destruct (dict_truthy item) eqn:Htrue.
    + by rewrite (find_by_id_present _ _ item).
    + unfold find_by_id, try_except_ClientError, call. simpl.
      unfold get_item. rewrite key_id_singleton. simpl.
      rewrite Hrow, Htrue. run_monad. by destruct h.
  - by rewrite find_by_id_absent.
Qed.

(** An update that returns: the row was there, and the table holds the
    updated item in its place. *)
Lemma update_returned (self : t) (item_id ue : string) (av : Dict)
    (ce : option ConditionBase) (an : gmap string string) (h : option exn)
    (w w' : world rows) (attributes : Dict) :
  update self item_id ue av ce an h w = (Returned attributes, w') →
  ∃ old delta,
    store w !! item_id = Some old
    ∧ is_Some (old !! "id")
    ∧ holds (effective_condition ce) old = true
    ∧ parse_update ue an av = Some delta
    ∧ delta !! "id" = None
    ∧ store w' = <[item_id := apply_update delta old]> (store w).
Proof.
  rewrite update_request. unfold try_except_ClientError, call. simpl.
  unfold update_item. rewrite key_id_singleton.
  destruct (parse_update _ _ _) as [delta|] eqn:Hparse;
    [|run_monad; by intros [=]].
  case_bool_decide as Hkey; [run_monad; by intros [=]|].
  destruct (holds _ _) eqn:Hholds; [|run_monad; by intros [=]].
  pose proof Hholds as (old & Hrow & Hid)%effective_condition_present.
  rewrite Hrow in Hholds |- *. simpl in *.
  destruct (nonempty _) as [attrs|]; simpl; [|by intros [=]].
  intros [= -> <-]. exists old, delta. split_and!; try done.
  by destruct (delta !! "id") eqn:E; [destruct Hkey; eexists|].
Qed.

(** X9.  On the DynamoDB table, [insert] of an item and [delete] of an id
    leave what [find_by_id] answers for every other id as it was. *)
Theorem insert_and_delete_leave_the_other_items (self : t)
    (other : string) (h h' : option exn) (w : world rows) :
  (∀ item,
     item !! "id" ≠ Some (VStr other) →
     (find_by_id self other h' (insert self item h w).2).1
     = (find_by_id self other h' w).1)
  ∧ (∀ item_id,
       item_id ≠ other →
       (find_by_id self other h' (delete self item_id h w).2).1
       = (find_by_id self other h' w).1).
Proof.
  split.
  - intros item Hid.
    rewrite !(proj1 (find_by_id_outcome _ _ _ _)), insert_table.
    unfold put_item. destruct (key_of item) as [k|] eqn:Hk; [|done].
    simpl. rewrite lookup_insert_ne; [done|].
    intros ->. by apply key_of_Some in Hk.
  - intros item_id Hne.
    rewrite !(proj1 (find_by_id_outcome _ _ _ _)), delete_run. simpl.
    by rewrite lookup_delete_ne.
Qed.

(** X10.  On the DynamoDB table, after [delete] of an id, whatever the table
    held, [find_by_id] of that id returns nothing: it runs the bare
    [raise]. *)
Theorem delete_then_find_by_id (self : t) (item_id : string)
    (h h' : option exn) (w : world rows) :
  (find_by_id self item_id h' (delete self item_id h w).2).1
  = Raised (default (RuntimeError "No active exception to reraise") h').
Proof.
  rewrite (proj1 (find_by_id_outcome _ _ _ _)), delete_run. simpl.
  by rewrite lookup_delete_eq.
Qed.

(** X11.  On the DynamoDB table, [update] of an item that is there, with a
    condition of the caller that does not hold of the item and an update
    expression the store accepts, raises
    [ConditionalCheckFailedException] after logging it, and leaves the
    table as it is. *)
Theorem update_with_a_false_condition_fails (self : t) (item_id : string)
    (update_expression : string) (expression_attribute_values : Dict)
    (c : ConditionBase) (expression_attribute_names : gmap string string)
    (h : option exn) (w : world rows) (old : Dict) :
  store w !! item_id = Some old →
  holds c old = false →
  update_accepted update_expression expression_attribute_names
    expression_attribute_values →
  update self item_id update_expression expression_attribute_values
    (Some c) expression_attribute_names h w
  = (Raised ConditionalCheckFailedException,
     MkWorld (store w)
       (trace w ++
          [Called (UpdateItem {[ "id" := VStr item_id ]} update_expression
                     expression_attribute_names expression_attribute_values
                     (And (AttributeExists (Attr "id")) c) "UPDATED_NEW")
             (Raised ConditionalCheckFailedException);
           error_log (update_msg self item_id)
             "ConditionalCheckFailedException"
             "The conditional request failed"])).
Proof.
  intros Hrow Hfalse (delta & Hparse & Hid).
  unfold update, try_except_ClientError, call. simpl.
  unfold update_item. rewrite key_id_singleton, Hparse, Hid.
  rewrite bool_decide_eq_false_2 by by intros [? [=]].
  rewrite Hrow. simpl. rewrite Hfalse, andb_false_r.
  run_monad. by rewrite <- app_assoc.
Qed.

(** X12.  On the DynamoDB table, after an [update] that returned,
    [find_by_id] of the id returns the updated item: the item that was
    there, changed as the update expression says, every attribute the
    expression does not write being as it was. *)
Theorem update_then_find_by_id (self : t) (item_id : string)
    (update_expression : string) (expression_attribute_values : Dict)
    (condition_expression : option ConditionBase)
    (expression_attribute_names : gmap string string)
    (h h' : option exn) (w w' : world rows) (attributes : Dict) :
  update self item_id update_expression expression_attribute_values
    condition_expression expression_attribute_names h w
  = (Returned attributes, w') →
  ∃ old delta,
    store w !! item_id = Some old
    ∧ parse_update update_expression expression_attribute_names
        expression_attribute_values = Some delta
    ∧ (find_by_id self item_id h' w').1
      = Returned (apply_update delta old)
    ∧ (∀ a, delta !! a = None → apply_update delta old !! a = old !! a).
Proof.
  intros (old & delta & Hrow & [v Hv] & _ & Hparse & Hid & Htable)
    %update_returned.
  exists old, delta. split_and!; try done.
  - rewrite (proj1 (find_by_id_outcome _ _ _ _)), Htable, lookup_insert_eq.
    rewrite (dict_truthy_lookup _ "id" v); [done|].
    by rewrite lookup_apply_update, Hid.
  - intros a Ha. by rewrite lookup_apply_update, Ha.
Qed.

(** X13.  On the DynamoDB table, [update] makes no row and removes none,
    whatever its arguments and its outcome: the ids of the table are the
    same after as before, and every row but the one of the id is as it
    was. *)
Theorem update_keeps_the_rows (self : t) (item_id : string)
    (update_expression : string) (expression_attribute_values : Dict)
    (condition_expression : option ConditionBase)
    (expression_attribute_names : gmap string string)
    (h : option exn) (w : world rows) :
  let after :=
    store (update self item_id update_expression
             expression_attribute_values condition_expression
             expression_attribute_names h w).2 in
  dom after = dom (store w)
  ∧ ∀ other, other ≠ item_id → after !! other = store w !! other.
Proof.
  simpl. rewrite update_table. unfold update_item.
  rewrite key_id_singleton.
  destruct (parse_update _ _ _) as [delta|]; [|done].
  case_bool_decide as Hkey; [done|].
  destruct (holds _ _) eqn:Hholds; [|done].
  apply effective_condition_present in Hholds as (old & Hrow & _).
  rewrite Hrow. simpl. split.
  - rewrite dom_insert_L. apply subseteq_union_1_L, singleton_subseteq_l.
    by apply (elem_of_dom_2 (D := gset string)) in Hrow.
  - intros other Hother. by rewrite lookup_insert_ne.
Qed.

(** X14.  On the DynamoDB table, the methods that read, [find_by_id],
    [find_all] and [search], leave the table as it is, whatever they
    return or raise. *)
Theorem the_reads_leave_the_table (self : t) (h : option exn)
    (w : world rows) :
  (∀ item_id, store (find_by_id self item_id h w).2 = store w)
  ∧ (∀ start_key limit fuel run,
       find_all self start_key limit fuel h w = Some run →
       store run.2 = store w)
  ∧ (∀ field value, store (search self field value h w).2 = store w).
Proof.
  split_and!.
  - intros item_id. apply find_by_id_outcome.
  - intros start_key limit fuel run. unfold find_all.
    destruct (scan_loop _ _ _ _ _ _) as [[o1 w1]|] eqn:Hloop; [|done].
    apply scan_loop_table in Hloop. simpl in Hloop.
    destruct o1 as [found|[]]; run_monad; by intros [= <-].
  - intros field value. by rewrite search_run.
Qed.

(** X18.  On the DynamoDB table, [insert] of an item that has no ["id"]
    raises the store's [ValidationException] for the missing key; the
    method logs it with the item in the message, and the table stays as it
    is. *)
Theorem insert_without_id_raises (self : t) (item : Dict)
    (h : option exn) (w : world rows) :
  item !! "id" = None →
  insert self item h w
  = (Raised missing_key_error,
     MkWorld (store w)
       (trace w ++
          [Called (PutItem item) (Raised missing_key_error);
           error_log (insert_msg self item) "ValidationException"
             "One or more parameter values were invalid: Missing the key id in the item"])).
Proof.
  intros Hid. unfold insert, try_except_ClientError, call. simpl.
  unfold put_item, key_of, key_error. rewrite Hid.
  run_monad. by rewrite <- app_assoc.
Qed.

(** *** The batch writer *)

Lemma puts_app (l1 l2 : list Dict) (tbl : rows) :
  puts (l1 ++ l2) tbl = puts l2 (puts l1 tbl).
Proof. apply foldl_app. Qed.

Lemma puts_zip (chunk : list Dict) (keys : list string) (tbl : rows) :
  Forall2 (λ item k, key_of item = Some k) chunk keys →
  foldl (λ t kv, <[kv.1 := kv.2]> t) tbl (zip keys chunk) = puts chunk tbl.
Proof.
  intros Hkeys. revert tbl.
  induction Hkeys as [|item k chunk keys Hk _ IH]; intros tbl; [done|].
  unfold puts. simpl. rewrite Hk. apply IH.
Qed.

Lemma batch_write_item_puts (chunk : list Dict) (keys : list string)
    (tbl : rows) :
  Forall2 (λ item k, key_of item = Some k) chunk keys →
  NoDup keys →
  batch_write_item chunk tbl = (Returned empty_response, puts chunk tbl).
Proof.
  intros Hkeys Hnodup. unfold batch_write_item.
  rewrite (mapM_Some_2 _ _ _ Hkeys), bool_decide_eq_true_2 by done.
  by rewrite puts_zip.
Qed.

Lemma batch_writer_puts (data : list Dict) :
  ∀ (buffer : list Dict) (tbl : rows) (kb kd : list string),
    Forall2 (λ item k, key_of item = Some k) buffer kb →
    Forall2 (λ item k, key_of item = Some k) data kd →
    NoDup (kb ++ kd) →
    batch_writer buffer data tbl
    = (Returned empty_response, puts (buffer ++ data) tbl).
Proof.
  induction data as [|item data IH]; intros buffer tbl kb kd Hb Hd Hnodup.
  - apply Forall2_nil_inv_l in Hd as ->. rewrite !app_nil_r in *. simpl.
    destruct buffer as [|item buffer]; [done|].
    by apply (batch_write_item_puts _ kb).
  - apply Forall2_cons_inv_l in Hd as (k & kd' & Hk & Hd & ->).
    assert (Forall2 (λ item k, key_of item = Some k)
              (buffer ++ [item]) (kb ++ [k])) as Hb'.
    { apply Forall2_app; [done|]. by constructor. }
    assert (NoDup ((kb ++ [k]) ++ kd')) as Hnodup'
      by by rewrite <- app_assoc.
    simpl. replace (buffer ++ item :: data) with ((buffer ++ [item]) ++ data)
      by by rewrite <- app_assoc.
    case_decide.
    + rewrite (batch_write_item_puts _ (kb ++ [k])); [|done|].
      * rewrite (IH [] _ [] kd'); [|done|done|].
        -- by rewrite (puts_app (buffer ++ [item])).
        -- by apply NoDup_app in Hnodup' as (_ & _ & ?).
      * by apply NoDup_app in Hnodup' as (? & _ & _).
    + by apply (IH _ _ (kb ++ [k]) kd').
Qed.

Lemma lookup_puts_other (items : list Dict) (keys : list string)
    (tbl : rows) (other : string) :
  Forall2 (λ item k, key_of item = Some k) items keys →
  other ∉ keys →
  puts items tbl !! other = tbl !! other.
Proof.
  intros Hkeys. revert tbl.
  induction Hkeys as [|item k items keys Hk _ IH]; intros tbl Hother;
    [done|].
  apply not_elem_of_cons in Hother as [Hne Hother].
  unfold puts. simpl. rewrite Hk. fold (puts items (<[k := item]> tbl)).
  rewrite IH by done. by rewrite lookup_insert_ne.
Qed.

Lemma lookup_puts (items : list Dict) (keys : list string) (tbl : rows)
    (i : nat) (item : Dict) (k : string) :
  Forall2 (λ item k, key_of item = Some k) items keys →
  NoDup keys →
  items !! i = Some item →
  keys !! i = Some k →
  puts items tbl !! k = Some item.
Proof.
  intros Hkeys. revert tbl i.
  induction Hkeys as [|item' k' items keys Hk Hkeys IH];
    intros tbl i Hnodup Hitem Hkey; [done|].
  apply NoDup_cons in Hnodup as [Hnotin Hnodup].
  unfold puts. simpl. rewrite Hk. fold (puts items (<[k' := item']> tbl)).
  destruct i as [|i]; simpl in *.
  - injection Hitem as ->. injection Hkey as ->.
    rewrite (lookup_puts_other _ keys) by done. apply lookup_insert_eq.
  - by apply (IH _ i).
Qed.

Lemma insert_many_run (self : t) (data : list Dict) (h : option exn)
    (w : world rows) :
  (insert_many self data h w).1
  = match (batch_writer [] data (store w)).1 with
    | Returned _ => Returned tt
    | Raised e => Raised e
    end
  ∧ store (insert_many self data h w).2
    = (batch_writer [] data (store w)).2.
Proof.
  unfold insert_many, try_except_ClientError, call. simpl.
  by destruct (batch_writer [] data (store w)) as [[response|[]] tbl'].
Qed.

(** X15.  On the DynamoDB table, after an [insert_many] that returned, of
    items that have each a string ["id"], no two the same, [find_by_id]
    returns each item for its id, and the rows of the other ids are as they
    were. *)
Theorem insert_many_then_find_by_id (self : t) (data : list Dict)
    (keys : list string) (h h' : option exn) (w w' : world rows) :
  insert_many self data h w = (Returned tt, w') →
  Forall2 (λ item k, item !! "id" = Some (VStr k)) data keys →
  NoDup keys →
  (∀ item,
     item ∈ data →
     ∃ k, item !! "id" = Some (VStr k)
          ∧ (find_by_id self k h' w').1 = Returned item)
  ∧ (∀ other, other ∉ keys → store w' !! other = store w !! other).
Proof.
  intros Hreturned Hids Hnodup.
  assert (Forall2 (λ item k, key_of item = Some k) data keys) as Hkeys.
  { eapply Forall2_impl; [done|]. intros item k. apply key_of_Some. }
  pose proof (batch_writer_puts data [] (store w) [] keys
                (Forall2_nil_2 _ _ _) Hkeys Hnodup) as Hrun.
  simpl in Hrun.
  assert (store w' = puts data (store w)) as Htable.
  { pose proof (proj2 (insert_many_run self data h w)) as Hstore.
    by rewrite Hreturned, Hrun in Hstore. }
  split.
  - intros item [i Hi]%list_elem_of_lookup.
    destruct (Forall2_lookup_l _ _ _ _ _ Hids Hi) as (k & Hk & Hid).
    exists k. split; [done|].
    rewrite (proj1 (find_by_id_outcome _ _ _ _)), Htable.
    rewrite (lookup_puts data keys _ i item k) by done.
    by rewrite (dict_truthy_lookup _ _ _ Hid).
  - intros other Hother. rewrite Htable.
    by apply (lookup_puts_other _ keys).
Qed.

Lemma batch_writer_small (data : list Dict) :
  ∀ (buffer : list Dict) (tbl : rows),
    (length buffer + length data < 25)%nat →
    batch_writer buffer data tbl
    = match buffer ++ data with
      | [] => (Returned empty_response, tbl)
      | _ => batch_write_item (buffer ++ data) tbl
      end.
Proof.
  induction data as [|item data IH]; intros buffer tbl Hsmall.
  - rewrite app_nil_r. by destruct buffer.
  - simpl in *. rewrite decide_False by (rewrite length_app; simpl; lia).
    rewrite IH by (rewrite length_app; simpl; lia).
    rewrite <- app_assoc. simpl. by destruct buffer.
Qed.

Lemma batch_write_item_raised (chunk : list Dict) (tbl : rows) (e : exn) :
  (batch_write_item chunk tbl).1 = Raised e →
  (batch_write_item chunk tbl).2 = tbl.
Proof.
  unfold batch_write_item.
  destruct (mapM key_of chunk); [|done]. by case_bool_decide.
Qed.

(** X16.  On the DynamoDB table, an [insert_many] of fewer than 25 items is
    one batch, written whole or not at all: when the method raises, the
    table is as it was. *)
Theorem a_small_insert_many_writes_all_or_nothing (self : t)
    (data : list Dict) (h : option exn) (w : world rows) (e : exn) :
  (length data < 25)%nat →
  (insert_many self data h w).1 = Raised e →
  store (insert_many self data h w).2 = store w.
Proof.
  intros Hsmall.
  destruct (insert_many_run self data h w) as [-> ->].
  rewrite batch_writer_small by (simpl; lia). simpl.
  destruct data as [|item data]; [done|].
  pose proof (batch_write_item_raised (item :: data) (store w)) as Hraised.
  destruct (batch_write_item _ _) as [[response|e'] tbl']; [done|].
  intros _. by apply (Hraised e').
Qed.

(** *** The pages of a scan *)

(** The loop of [find_all] on the DynamoDB table, with the number of calls
    it makes for the rows it has still to read. *)
Lemma scan_loop_calls (tbl : rows) (limit : Z) (h : option exn) :
  1 ≤ limit →
  ∀ (rest done : list (string * Dict)) (items : list Dict)
    (scan_args : ScanArgs) (start_key : option Dict) (tr : list event),
    map_to_list tbl = done ++ rest →
    Limit scan_args = limit →
    match start_key with
    | None => done = [] ∧ ExclusiveStartKey scan_args = None
    | Some key =>
        ∃ k v done', key = {[ "id" := VStr k ]} ∧ done = done' ++ [(k, v)]
    end →
    ∃ evs,
      (∀ fuel, (length rest < fuel)%nat →
         scan_loop fuel items scan_args start_key h (MkWorld tbl tr)
         = Some (Returned (items ++ rest.*2), MkWorld tbl (tr ++ evs)))
      ∧ length evs = (length rest / Z.to_nat limit + 1)%nat.
Proof.
  intros Hlimit rest.
  remember (length rest) as m eqn:Hm. revert rest Hm.
  induction m as [m IH] using lt_wf_ind.
  intros rest -> done items scan_args start_key tr Hall Hlim Hstart.
  assert ((if truthy start_key
           then MkScanArgs (Limit scan_args) start_key
           else scan_args) = MkScanArgs limit start_key) as Hargs.
  { destruct start_key as [key|]; simpl.
    - destruct Hstart as (k & v & done' & -> & _).
      by rewrite dict_truthy_key, Hlim.
    - destruct Hstart as [_ Hnone]. destruct scan_args; simpl in *.
      by subst. }
  assert (match start_key with
          | None => Some (map_to_list tbl)
          | Some Key => k ← key_id Key; after k (map_to_list tbl)
          end = Some rest) as Hrest.
  { destruct start_key as [key|].
    - destruct Hstart as (k & v & done' & -> & ->).
      rewrite key_id_singleton. simpl.
      rewrite Hall, <- app_assoc. apply after_app.
      replace (done' ++ (k, v) :: rest) with (map_to_list tbl)
        by (by rewrite Hall, <- app_assoc).
      apply NoDup_fst_map_to_list.
    - destruct Hstart as [-> _]. by rewrite Hall. }
  set (n := Z.to_nat limit). assert (1 ≤ n)%nat as Hn by lia.
  set (page := take n rest).
  destruct (decide (n ≤ length rest)%nat) as [Hfull|Hshort].
  - destruct (last page) as [[k v]|] eqn:Hlast.
    2:{ apply last_None in Hlast.
        apply (f_equal length) in Hlast. unfold page in Hlast.
        rewrite length_take in Hlast. simpl in Hlast. lia. }
    pose proof Hlast as [page' Hpage]%last_Some.
    set (answer := {| Item := None; Attributes := None;
                      Items := Some page.*2;
                      LastEvaluatedKey := Some {[ "id" := VStr k ]} |}).
    destruct (IH (length (drop n rest))) with
      (rest := drop n rest) (done := done ++ page)
      (items := items ++ page.*2) (scan_args := MkScanArgs limit start_key)
      (start_key := Some ({[ "id" := VStr k ]} : Dict))
      (tr := tr ++ [Called (Scan (MkScanArgs limit start_key))
                      (Returned answer)])
      as (evs & Hrun & Hcount).
    + rewrite length_drop. lia.
    + done.
    + rewrite <- app_assoc. unfold page. by rewrite take_drop.
    + done.
    + exists k, v, (done ++ page'). by rewrite Hpage, app_assoc.
    + exists (Called (Scan (MkScanArgs limit start_key)) (Returned answer)
                :: evs).
      split.
      * intros [|fuel] Hfuel; [lia|].
        simpl. rewrite Hargs. unfold call. simpl. unfold scan. simpl.
        rewrite decide_False by lia. rewrite Hrest. fold n page.
        rewrite decide_True by done. rewrite Hlast. simpl.
        rewrite Hrun by (rewrite length_drop; lia).
        do 2 f_equal.
        -- rewrite <- app_assoc, <- fmap_app. unfold page.
           by rewrite take_drop.
        -- by rewrite <- app_assoc.
      * simpl. rewrite Hcount, length_drop. fold n.
        assert (length rest = (length rest - n) + 1 * n)%nat as Hsplit
          by (clear -Hfull; lia).
        rewrite Hsplit at 2.
        rewrite Nat.div_add by (clear -Hn; lia).
        generalize ((length rest - n) / n)%nat. clear. intros q. lia.
  - exists [Called (Scan (MkScanArgs limit start_key))
              (Returned {| Item := None; Attributes := None;
                           Items := Some rest.*2;
                           LastEvaluatedKey := None |})].
    split; [|by rewrite Nat.div_small by lia].
    intros [|fuel] Hfuel; [lia|].
    simpl. rewrite Hargs. unfold call. simpl. unfold scan. simpl.
    rewrite decide_False by lia. rewrite Hrest. fold n.
    rewrite decide_False by done. by rewrite take_ge by lia.
Qed.

(** X17.  On the DynamoDB table, for every table, the empty one too, and
    every limit of at least 1, [find_all] returns the items of all the
    rows in the order of the scan, with any fuel above the number of rows.
    It makes one call more than the limit goes whole times into the number
    of rows: a table whose rows fill the last page costs one more, empty,
    page. *)
Theorem find_all_reads_any_table (self : t) (start_key : option Dict)
    (limit : Z) (h : option exn) (tbl : rows) (tr : list event) :
  1 ≤ limit →
  ∃ evs,
    (∀ fuel, (size tbl < fuel)%nat →
       find_all self start_key limit fuel h (MkWorld tbl tr)
       = Some (Returned (map_to_list tbl).*2, MkWorld tbl (tr ++ evs)))
    ∧ length evs = (size tbl / Z.to_nat limit + 1)%nat.
Proof.
  intros Hlimit.
  destruct (scan_loop_calls tbl limit h Hlimit (map_to_list tbl) [] []
              (MkScanArgs limit None) None tr)
    as (evs & Hrun & Hcount); try done.
  exists evs. rewrite length_map_to_list in Hcount. split; [|done].
  intros fuel Hfuel. unfold find_all.
  by rewrite Hrun by (by rewrite length_map_to_list).
Qed.

End OnDynamoDBFurther.

(** ** The further properties on the sample data *)

(** X1 on the store that answers with an empty item. *)
Lemma find_by_id_without_item_witness :
  @find_by_id unit sample.hollow sample.self "u1" None (MkWorld tt [])
  = (Raised (RuntimeError "No active exception to reraise"),
     MkWorld tt
       [Called (GetItem {[ "id" := VStr "u1" ]})
          (Returned {| Item := Some ∅; Attributes := None; Items := None;
                       LastEvaluatedKey := None |});
        Logged (not_found_msg sample.self "u1")]).
Proof.
  apply (@find_by_id_without_item unit sample.hollow sample.self "u1" None
           (MkWorld tt []) _ tt); reflexivity.
Defined.

(** X2 on the table [users], for the id of [u1]. *)
Lemma find_by_id_returns_the_item_sent_witness :
  ∃ response,
    @execute rows sample.store (GetItem {[ "id" := VStr "u1" ]}) sample.users
    = (Returned response, sample.users)
    ∧ Item response = Some sample.u1
    ∧ sample.u1 ≠ ∅.
Proof.
  destruct (@find_by_id_returns_the_item_sent rows sample.store sample.self
              "u1" None sample.users_world
              (@find_by_id rows sample.store sample.self "u1" None
                 sample.users_world).2
              sample.u1 eq_refl)
    as (response & Hexec & Hitem & Hne & _).
  by exists response.
Defined.

(** X3 on the store whose answers have no ['Attributes']. *)
Lemma update_without_attributes_raises_KeyError_witness :
  (@update unit sample.hollow sample.self "u1" "set #S=:s"
     {[ ":s" := VStr "gone" ]} None {[ "#S" := "status" ]} None
     (MkWorld tt [])).1
  = Raised (KeyError "Attributes").
Proof.
  exact (f_equal fst
           (@update_without_attributes_raises_KeyError unit sample.hollow
              sample.self "u1" "set #S=:s" {[ ":s" := VStr "gone" ]} None
              {[ "#S" := "status" ]} None (MkWorld tt []) _ tt eq_refl
              eq_refl)).
Defined.

(** X6 on the table [users], read with a limit of 2: a page of two items
    with the cursor of [u1], and a page of one. *)
Lemma find_all_returns_the_pages_witness :
  @find_all rows sample.store sample.self None 2 5 None sample.users_world
  = Some
      (Returned [sample.u3; sample.u1; sample.u2],
       MkWorld sample.users
         [Called (Scan (MkScanArgs 2 None))
            (Returned {| Item := None; Attributes := None;
                         Items := Some [sample.u3; sample.u1];
                         LastEvaluatedKey := Some {[ "id" := VStr "u1" ]} |});
          Called (Scan (MkScanArgs 2 (Some {[ "id" := VStr "u1" ]})))
            (Returned {| Item := None; Attributes := None;
                         Items := Some [sample.u2];
                         LastEvaluatedKey := None |})])
  ∧ ∃ evs,
      [Called (Scan (MkScanArgs 2 None))
         (Returned {| Item := None; Attributes := None;
                      Items := Some [sample.u3; sample.u1];
                      LastEvaluatedKey := Some {[ "id" := VStr "u1" ]} |});
       Called (Scan (MkScanArgs 2 (Some {[ "id" := VStr "u1" ]})))
         (Returned {| Item := None; Attributes := None;
                      Items := Some [sample.u2];
                      LastEvaluatedKey := None |})]
      = [] ++ evs
      ∧ [sample.u3; sample.u1; sample.u2] = pages evs
      ∧ Forall (is_scan_of 2) evs
      ∧ (1 ≤ length evs)%nat.
Proof.
  assert (@find_all rows sample.store sample.self None 2 5 None
            sample.users_world
          = Some
              (Returned [sample.u3; sample.u1; sample.u2],
               MkWorld sample.users
                 [Called (Scan (MkScanArgs 2 None))
                    (Returned
                       {| Item := None; Attributes := None;
                          Items := Some [sample.u3; sample.u1];
                          LastEvaluatedKey :=
                            Some {[ "id" := VStr "u1" ]} |});
                  Called (Scan (MkScanArgs 2 (Some {[ "id" := VStr "u1" ]})))
                    (Returned
                       {| Item := None; Attributes := None;
                          Items := Some [sample.u2];
                          LastEvaluatedKey := None |})])) as Hrun.
  { vm_compute. reflexivity. }
  split; [exact Hrun|].
  exact (@find_all_returns_the_pages rows sample.store sample.self None 2 5
           None sample.users_world _ _ Hrun).
Defined.

(** X7 on the store that answers every call with a cursor. *)
Lemma find_all_runs_while_the_store_sends_a_cursor_witness :
  @find_all unit sample.endless sample.self None 100 1000 None
    (MkWorld tt [])
  = None.
Proof.
  apply (@find_all_runs_while_the_store_sends_a_cursor unit sample.endless).
  intros scan_args s. eexists _, _. split; [reflexivity|]. by eexists.
Defined.

(** X11 on the table [users]: an update of [u1], whose status is not
    ["idle"], on the condition that it is. *)
Lemma update_with_a_false_condition_fails_witness :
  (@update rows sample.store sample.self "u1" "set #S=:s"
     {[ ":s" := VStr "gone" ]}
     (Some (Equals (Attr "status") (VStr "idle")))
     {[ "#S" := "status" ]} None sample.users_world).1
  = Raised ConditionalCheckFailedException.
Proof.
  assert (@update_accepted sample.language "set #S=:s" {[ "#S" := "status" ]}
            {[ ":s" := VStr "gone" ]}) as Haccepted.
  { eexists. split; reflexivity. }
  exact (f_equal fst
           (@update_with_a_false_condition_fails sample.language sample.self
              "u1" "set #S=:s" {[ ":s" := VStr "gone" ]}
              (Equals (Attr "status") (VStr "idle")) {[ "#S" := "status" ]}
              None sample.users_world sample.u1 eq_refl eq_refl Haccepted)).
Defined.

(** X12 on the table [users]: the status of [u1] set to ["gone"], and
    [u1] read back. *)
Lemma update_then_find_by_id_witness :
  ∃ old delta,
    sample.users !! "u1" = Some old
    ∧ (@find_by_id rows sample.store sample.self "u1" None
         (@update rows sample.store sample.self "u1" "set #S=:s"
            {[ ":s" := VStr "gone" ]} None {[ "#S" := "status" ]} None
            sample.users_world).2).1
      = Returned (apply_update delta old).
Proof.
  assert (@update rows sample.store sample.self "u1" "set #S=:s"
            {[ ":s" := VStr "gone" ]} None {[ "#S" := "status" ]} None
            sample.users_world
          = (Returned {[ "status" := VStr "gone" ]},
             (@update rows sample.store sample.self "u1" "set #S=:s"
                {[ ":s" := VStr "gone" ]} None {[ "#S" := "status" ]} None
                sample.users_world).2)) as Hrun by reflexivity.
  destruct (@update_then_find_by_id sample.language sample.self "u1"
              "set #S=:s" {[ ":s" := VStr "gone" ]} None
              {[ "#S" := "status" ]} None None sample.users_world _ _ Hrun)
    as (old & delta & Hrow & _ & Hfind & _).
  by exists old, delta.
Defined.

(** X15 on the empty table: the three sample items written in one
    [insert_many], which leaves the table [users]. *)
Lemma insert_many_then_find_by_id_witness :
  @insert_many rows sample.store sample.self
    [sample.u1; sample.u2; sample.u3] None sample.empty_world
  = (Returned tt,
     MkWorld sample.users
       [Called (BatchWriter [sample.u1; sample.u2; sample.u3])
          (Returned empty_response)])
  ∧ ∀ item,
      item ∈ [sample.u1; sample.u2; sample.u3] →
      ∃ k, item !! "id" = Some (VStr k)
           ∧ (@find_by_id rows sample.store sample.self k None
                (MkWorld sample.users
                   [Called (BatchWriter [sample.u1; sample.u2; sample.u3])
                      (Returned empty_response)])).1
             = Returned item.
Proof.
  assert (@insert_many rows sample.store sample.self
            [sample.u1; sample.u2; sample.u3] None sample.empty_world
          = (Returned tt,
             MkWorld sample.users
               [Called (BatchWriter [sample.u1; sample.u2; sample.u3])
                  (Returned empty_response)])) as Hreturned.
  { vm_compute. reflexivity. }
  assert (Forall2 (λ (item : Dict) k, item !! "id" = Some (VStr k))
            [sample.u1; sample.u2; sample.u3] ["u1"; "u2"; "u3"]) as Hids.
  { repeat constructor. }
  assert (NoDup ["u1"; "u2"; "u3"]) as Hnodup.
  { apply (bool_decide_unpack _). vm_compute. exact I. }
  split; [exact Hreturned|].
  exact (proj1 (@insert_many_then_find_by_id sample.language sample.self
                  [sample.u1; sample.u2; sample.u3] ["u1"; "u2"; "u3"]
                  None None sample.empty_world _ Hreturned Hids Hnodup)).
Defined.

(** X16 on the table [users]: an [insert_many] of [u1] twice, which the
    store refuses. *)
Lemma a_small_insert_many_writes_all_or_nothing_witness :
  (@insert_many rows sample.store sample.self [sample.u1; sample.u1] None
     sample.users_world).1
  = Raised
      (ValidationException "Provided list of item keys contains duplicates")
  ∧ store (@insert_many rows sample.store sample.self
             [sample.u1; sample.u1] None sample.users_world).2
    = sample.users.
Proof.
  assert ((@insert_many rows sample.store sample.self [sample.u1; sample.u1]
             None sample.users_world).1
          = Raised
              (ValidationException
                 "Provided list of item keys contains duplicates"))
    as Hraised by reflexivity.
  split; [done|].
  apply (@a_small_insert_many_writes_all_or_nothing sample.language
           sample.self [sample.u1; sample.u1] None sample.users_world _
           ltac:(simpl; lia) Hraised).
Defined.

(** X17 on the table [users]: its three rows read with a limit of 3, in
    two calls. *)
Lemma find_all_reads_any_table_witness :
  ∃ evs,
    (∀ fuel, (size sample.users < fuel)%nat →
       @find_all rows sample.store sample.self None 3 fuel None
         (MkWorld sample.users [])
       = Some (Returned (map_to_list sample.users).*2,
               MkWorld sample.users ([] ++ evs)))
    ∧ length evs = (size sample.users / Z.to_nat 3 + 1)%nat.
Proof.
  apply (@find_all_reads_any_table sample.language sample.self None 3 None
           sample.users []).
  lia.
Defined.

(** X18 on the table [users]: an [insert] of an item that has a status and
    no id. *)
Lemma insert_without_id_raises_witness :
  (@insert rows sample.store sample.format sample.self sample.nameless None
     sample.users_world).1
  = Raised missing_key_error.
Proof.
  exact (f_equal fst
           (@insert_without_id_raises sample.language sample.format
              sample.self sample.nameless None sample.users_world eq_refl)).
Defined.
